(** * QueryRelaxer: relaxing equality queries with relaxed functional
      dependencies (query_rewriter/query/relaxer.py)

    The Python class [QueryRelaxer] is embedded as Rocq functions.

    - Python values are a tagged union ([scalar], [value]); floats are
      IEEE 754 binary64 numbers ([spec_float] at precision 53).
    - Exceptions are a sum type ([result]); an instance method is a state
      transformer over the instance fields that keeps the fields written
      before an exception was raised.
    - A pandas DataFrame is a list of column labels and a list of labelled
      rows; the pandas operations the class calls are modelled next to it.
    - The query handed to [extend_query_ranges] lives in a store of dict
      objects, because the function assigns into the caller's dict. *)

From Stdlib Require Import ZArith List String Ascii Bool Lia.
From Stdlib Require Import SpecFloat DecimalString.
Import ListNotations.

Local Open Scope string_scope.
Local Open Scope list_scope.
Local Open Scope Z_scope.

(* ===================================================================== *)
(** * Python values and exceptions *)
(* ===================================================================== *)

Module Py.

(** The exception classes the modelled code can raise. *)
Inductive exn : Type :=
| KeyError
| TypeError
| ValueError
| OverflowError.

Inductive result (A : Type) : Type :=
| Ok (a : A)
| Raise (e : exn).

Arguments Ok {A} a.
Arguments Raise {A} e.

Definition bind {A B : Type} (r : result A) (k : A -> result B) : result B :=
  match r with
  | Ok a => k a
  | Raise e => Raise e
  end.

Notation "'let*' x ':=' r 'in' k" := (bind r (fun x => k))
  (at level 10, x name, r at level 100, k at level 200).

(** [mapM f l] evaluates [f] on the elements of [l] from left to right and
    stops at the first exception (a list comprehension or [Series.apply]). *)
Fixpoint mapM {A B : Type} (f : A -> result B) (l : list A) : result (list B) :=
  match l with
  | [] => Ok []
  | x :: l' =>
      let* y := f x in
      let* ys := mapM f l' in
      Ok (y :: ys)
  end.

(** Python floats are binary64 numbers. *)
Definition prec : Z := 53.
Definition emax : Z := 1024.
Definition float : Type := spec_float.

Definition nan : float := S754_nan.
Definition fzero : float := S754_zero false.

(** A value small enough to sit in a DataFrame cell or in an RFD dict. *)
Inductive scalar : Type :=
| SNone
| SBool (b : bool)
| SInt (z : Z)
| SFloat (f : float)
| SStr (s : string).

(** A query value: a scalar, or (after relaxation) a list of scalars. *)
Inductive value : Type :=
| Scalar (s : scalar)
| VList (l : list scalar).

(** The numeric tower as far as the code uses it.  [bool] is a subclass of
    [int], so [True] and [False] take part in arithmetic as 1 and 0. *)
Inductive number : Type :=
| NInt (z : Z)
| NFloat (f : float).

Definition number_of_scalar (s : scalar) : option number :=
  match s with
  | SBool b => Some (NInt (Z.b2z b))
  | SInt z => Some (NInt z)
  | SFloat f => Some (NFloat f)
  | SNone | SStr _ => None
  end.

(** [isinstance(v, int)]: the int behind [v], when there is one. *)
Definition as_int (v : value) : option Z :=
  match v with
  | Scalar (SInt z) => Some z
  | Scalar (SBool b) => Some (Z.b2z b)
  | _ => None
  end.

Definition isinstance_int (v : value) : bool :=
  match as_int v with Some _ => true | None => false end.

(** [isinstance(v, str)]. *)
Definition as_str (v : value) : option string :=
  match v with
  | Scalar (SStr s) => Some s
  | _ => None
  end.

Definition isinstance_str (v : value) : bool :=
  match as_str v with Some _ => true | None => false end.

(** [float(z)]: round to nearest even; an int beyond the float range
    raises OverflowError. *)
Definition float_of_int (z : Z) : result float :=
  match binary_normalize prec emax z 0 false with
  | S754_infinity _ => Raise OverflowError
  | f => Ok f
  end.

(** [int(f)]: truncation toward zero. *)
Definition int_of_float (f : float) : result Z :=
  match f with
  | S754_nan => Raise ValueError
  | S754_infinity _ => Raise OverflowError
  | S754_zero _ => Ok 0
  | S754_finite s m e =>
      let a := if 0 <=? e then Z.pos m * 2 ^ e else Z.pos m / 2 ^ (- e) in
      Ok (if s then - a else a)
  end.

Definition int_of_number (n : number) : result Z :=
  match n with
  | NInt z => Ok z
  | NFloat f => int_of_float f
  end.

(** Binary [+] and [-] on numbers: int with int is exact, anything with a
    float is float arithmetic after converting the int operand. *)
Definition float_of_number (n : number) : result float :=
  match n with
  | NInt z => float_of_int z
  | NFloat f => Ok f
  end.

Definition num_sub (a b : number) : result number :=
  match a, b with
  | NInt x, NInt y => Ok (NInt (x - y))
  | _, _ =>
      let* fa := float_of_number a in
      let* fb := float_of_number b in
      Ok (NFloat (SFsub prec emax fa fb))
  end.

Definition num_add (a b : number) : result number :=
  match a, b with
  | NInt x, NInt y => Ok (NInt (x + y))
  | _, _ =>
      let* fa := float_of_number a in
      let* fb := float_of_number b in
      Ok (NFloat (SFadd prec emax fa fb))
  end.

(** Exact comparison of an int with a float, as Python compares them
    (no conversion of the int).  [None] when the float is a NaN. *)
Definition compare_int_float (z : Z) (f : float) : option comparison :=
  match f with
  | S754_nan => None
  | S754_infinity s => Some (if s then Gt else Lt)
  | S754_zero _ => Some (z ?= 0)
  | S754_finite s m e =>
      let n := if s then Z.neg m else Z.pos m in
      if 0 <=? e then Some (z ?= n * 2 ^ e) else Some (z * 2 ^ (- e) ?= n)
  end.

Definition num_compare (a b : number) : option comparison :=
  match a, b with
  | NInt x, NInt y => Some (x ?= y)
  | NInt x, NFloat g => compare_int_float x g
  | NFloat f, NInt y => option_map CompOpp (compare_int_float y f)
  | NFloat f, NFloat g => SFcompare f g
  end.

Definition num_ltb (a b : number) : bool :=
  match num_compare a b with Some Lt => true | _ => false end.

Definition num_leb (a b : number) : bool :=
  match num_compare a b with Some (Lt | Eq) => true | _ => false end.

(** [x > 0.0]: a TypeError unless [x] is a number. *)
Definition gt_zero (x : scalar) : result bool :=
  match number_of_scalar x with
  | Some n => Ok (num_ltb (NFloat fzero) n)
  | None => Raise TypeError
  end.

(** [d <= x] for an int [d]. *)
Definition int_le (d : Z) (x : scalar) : result bool :=
  match number_of_scalar x with
  | Some n => Ok (num_leb (NInt d) n)
  | None => Raise TypeError
  end.

(** [list(range(a, b))]. *)
Definition range (a b : Z) : list Z :=
  map (fun i => a + Z.of_nat i) (seq 0 (Z.to_nat (b - a))).

(** [numpy.isnan(x)]: a TypeError on [None] and on strings. *)
Definition np_isnan (x : scalar) : result bool :=
  match x with
  | SFloat S754_nan => Ok true
  | SFloat _ | SInt _ | SBool _ => Ok false
  | SNone | SStr _ => Raise TypeError
  end.

(** Dicts keep insertion order and have string keys here: association lists
    whose keys are pairwise distinct. *)
Definition dict (V : Type) : Type := list (string * V).

Fixpoint dict_get {V : Type} (d : dict V) (k : string) : option V :=
  match d with
  | [] => None
  | (k', v) :: d' => if String.eqb k k' then Some v else dict_get d' k
  end.

(** [d[k]]. *)
Definition getitem {V : Type} (d : dict V) (k : string) : result V :=
  match dict_get d k with
  | Some v => Ok v
  | None => Raise KeyError
  end.

(** [d[k] = v] for a key that is already in [d]: the position is kept. *)
Fixpoint dict_set {V : Type} (d : dict V) (k : string) (v : V) : dict V :=
  match d with
  | [] => [(k, v)]
  | (k', v') :: d' =>
      if String.eqb k k' then (k', v) :: d' else (k', v') :: dict_set d' k v
  end.

Definition keys {V : Type} (d : dict V) : list string := map fst d.

(** Decimal text of an int, as [str] gives it. *)
Definition str_of_int (z : Z) : string := NilZero.string_of_int (Z.to_int z).

End Py.

Import Py.

(* ===================================================================== *)
(** * The editdistance package *)
(* ===================================================================== *)

Module EditDistance.

(** [editdistance.eval(a, b)] is the Levenshtein distance: the least number
    of single-character insertions, deletions and substitutions that turn
    [a] into [b].  One [ascii] stands for one character of a Python str. *)
Fixpoint eval (a : string) : string -> nat :=
  fix eval_a (b : string) : nat :=
    match a with
    | EmptyString => String.length b
    | String x a' =>
        match b with
        | EmptyString => String.length a
        | String y b' =>
            Nat.min (S (eval a' b))
              (Nat.min (S (eval_a b'))
                 ((if Ascii.eqb x y then 0 else 1) + eval a' b'))%nat
        end
    end.

End EditDistance.

(* ===================================================================== *)
(** * The pandas operations used by the class *)
(* ===================================================================== *)

Module Pandas.

(** A row carries its index label and its cells, one per column label, in
    the order of [columns].  Column labels are pairwise distinct.  A cell
    that a row does not reach reads as NaN. *)
Record DataFrame : Type := mkDataFrame {
  columns : list string;
  rows : list (Z * list scalar)
}.

(** A Series: labelled values. *)
Definition Series (A : Type) : Type := list (Z * A).

Fixpoint lookup_cell (cols : list string) (r : list scalar) (c : string)
  : option scalar :=
  match cols, r with
  | c' :: cols', x :: r' =>
      if String.eqb c c' then Some x else lookup_cell cols' r' c
  | _, _ => None
  end.

Definition cell (cols : list string) (r : list scalar) (c : string) : scalar :=
  match lookup_cell cols r c with
  | Some x => x
  | None => SFloat nan
  end.

Definition has_column (df : DataFrame) (c : string) : bool :=
  existsb (String.eqb c) (columns df).

(** [pandas.isna] on one cell: None and NaN are missing. *)
Definition isna (x : scalar) : bool :=
  match x with
  | SNone => true
  | SFloat S754_nan => true
  | _ => false
  end.

(** [df[c]]: the column as a Series. *)
Definition getitem_column (df : DataFrame) (c : string)
  : result (Series scalar) :=
  if has_column df c
  then Ok (map (fun r => (fst r, cell (columns df) (snd r) c)) (rows df))
  else Raise KeyError.

(** [s.isin(values)] for a list of strings. *)
Definition isin (s : Series scalar) (values : list string) : Series bool :=
  map (fun p => (fst p,
                 match snd p with
                 | SStr x => existsb (String.eqb x) values
                 | _ => false
                 end)) s.

(** [df[mask]] for a boolean Series over the rows of [df]. *)
Fixpoint select_rows {A : Type} (rs : list A) (mask : list bool) : list A :=
  match rs, mask with
  | r :: rs', b :: mask' =>
      if b then r :: select_rows rs' mask' else select_rows rs' mask'
  | _, _ => []
  end.

Definition getitem_mask (df : DataFrame) (mask : Series bool) : DataFrame :=
  mkDataFrame (columns df) (select_rows (rows df) (map snd mask)).

(** [df[key]] for the Series [key] that [Series.apply] gave back on a
    column of [df].  With at least one row [key] is a boolean mask.  On a
    column with no rows [apply] gives back a Series with no rows that has
    the dtype of the column, not bool; [df[key]] then reads [key] as a list
    of column labels, an empty one, and the frame it returns has the index
    of [df] and no column. *)
Definition getitem_applied (df : DataFrame) (key : Series bool) : DataFrame :=
  match key with
  | [] => mkDataFrame [] (map (fun r => (fst r, [])) (rows df))
  | _ :: _ => getitem_mask df key
  end.

(** [df.index]. *)
Definition index (df : DataFrame) : list Z := map fst (rows df).

(** [df.drop(labels)]: every row whose index label occurs in [labels] goes;
    a label that is no index label is a KeyError. *)
Definition mem_label (i : Z) (labels : list Z) : bool :=
  existsb (Z.eqb i) labels.

Definition drop (df : DataFrame) (labels : list Z) : result DataFrame :=
  if forallb (fun i => mem_label i (index df)) labels
  then Ok (mkDataFrame (columns df)
             (filter (fun r => negb (mem_label (fst r) labels)) (rows df)))
  else Raise KeyError.

(** [df.reset_index(drop=True)]: labels 0, 1, 2, ... *)
Definition reset_index (df : DataFrame) : DataFrame :=
  mkDataFrame (columns df)
    (combine (map Z.of_nat (seq 0 (List.length (rows df)))) (map snd (rows df))).

(** [df.dropna(subset=cols)]: a row goes when one of its cells under [cols]
    is missing; a label of [cols] that is no column is a KeyError. *)
Definition row_complete (cols subset : list string) (r : Z * list scalar) : bool :=
  forallb (fun c => negb (isna (cell cols (snd r) c))) subset.

Definition dropna (df : DataFrame) (subset : list string) : result DataFrame :=
  if forallb (has_column df) subset
  then Ok (mkDataFrame (columns df)
             (filter (row_complete (columns df) subset) (rows df)))
  else Raise KeyError.

(** [df.isnull().sum(axis=1)]: the number of missing cells of each row. *)
Definition count_na (cols : list string) (r : list scalar) : Z :=
  Z.of_nat (List.length (filter (fun c => isna (cell cols r c)) cols)).

Definition isnull_sum (df : DataFrame) : Series Z :=
  map (fun r => (fst r, count_na (columns df) (snd r))) (rows df).

(** [df.assign] with one keyword [c = s]: column [c] is overwritten where it stands, or
    added as the last column. *)
Definition assign (df : DataFrame) (c : string) (s : Series Z) : DataFrame :=
  let cols := columns df in
  if has_column df c
  then mkDataFrame cols
         (map (fun rv =>
                 (fst (fst rv),
                  map (fun c' => if String.eqb c' c then SInt (snd (snd rv))
                                 else cell cols (snd (fst rv)) c') cols))
            (combine (rows df) s))
  else mkDataFrame (cols ++ [c])
         (map (fun rv =>
                 (fst (fst rv),
                  map (cell cols (snd (fst rv))) cols ++ [SInt (snd (snd rv))]))
            (combine (rows df) s)).

(** [df.drop(c, axis=1)]. *)
Definition drop_column (df : DataFrame) (c : string) : result DataFrame :=
  if has_column df c
  then Ok (mkDataFrame
             (filter (fun c' => negb (String.eqb c' c)) (columns df))
             (map (fun r =>
                     (fst r,
                      map (cell (columns df) (snd r))
                        (filter (fun c' => negb (String.eqb c' c)) (columns df))))
                (rows df)))
  else Raise KeyError.

(** ** sort_values *)

(** The sort key of a cell: missing cells first ([na_position="first"]),
    then numbers in numeric order or strings in lexicographic order. *)
Definition key_compare (x y : scalar) : option comparison :=
  match isna x, isna y with
  | true, true => Some Eq
  | true, false => Some Lt
  | false, true => Some Gt
  | false, false =>
      match x, y with
      | SStr a, SStr b => Some (String.compare a b)
      | _, _ =>
          match number_of_scalar x, number_of_scalar y with
          | Some a, Some b => num_compare a b
          | _, _ => None
          end
      end
  end.

(** A column can be ordered when its present cells are all numbers or all
    strings; pandas raises TypeError on a mix. *)
Definition sortable (cells : list scalar) : bool :=
  forallb (fun x => forallb (fun y =>
     match key_compare x y with Some _ => true | None => false end) cells) cells.

(** Missing cells stay first under [ascending=False] too. *)
Definition directed (asc : bool) (x y : scalar) : comparison :=
  match key_compare x y with
  | Some c => if asc || isna x || isna y then c else CompOpp c
  | None => Eq
  end.

Fixpoint lex_compare (cols : list string) (by_ : list (string * bool))
  (r1 r2 : list scalar) : comparison :=
  match by_ with
  | [] => Eq
  | (c, asc) :: by' =>
      match directed asc (cell cols r1 c) (cell cols r2 c) with
      | Eq => lex_compare cols by' r1 r2
      | o => o
      end
  end.

(** Stable insertion: [r] goes in front of the first row that is not
    smaller than it. *)
Fixpoint insert_row (cmp : list scalar -> list scalar -> comparison)
  (r : Z * list scalar) (rs : list (Z * list scalar)) : list (Z * list scalar) :=
  match rs with
  | [] => [r]
  | r' :: rs' =>
      match cmp (snd r) (snd r') with
      | Gt => r' :: insert_row cmp r rs'
      | _ => r :: rs
      end
  end.

Definition sort_rows (cmp : list scalar -> list scalar -> comparison)
  (rs : list (Z * list scalar)) : list (Z * list scalar) :=
  fold_right (insert_row cmp) [] rs.

(** [df.sort_values(by=by_, ascending=ascending, na_position="first")].
    [by_] is what the caller passes: [None] or a list of labels.  pandas
    wraps a [by_] that is not a list into a one-element list, raises
    ValueError when [ascending] has another length than that list, and
    KeyError for a label ([None] included) that is no column. *)
Definition sort_values (df : DataFrame) (by_ : option (list string))
  (ascending : list bool) : result DataFrame :=
  let by_list : list (option string) :=
    match by_ with
    | Some l => map Some l
    | None => [None]
    end in
  if negb (Nat.eqb (List.length by_list) (List.length ascending))
  then Raise ValueError
  else
    let* labels :=
      mapM (fun o => match o with
                     | Some c => if has_column df c then Ok c else Raise KeyError
                     | None => Raise KeyError
                     end) by_list in
    if forallb (fun c => sortable (map (fun r => cell (columns df) (snd r) c)
                                      (rows df))) labels
    then Ok (mkDataFrame (columns df)
               (sort_rows (lex_compare (columns df) (combine labels ascending))
                  (rows df)))
    else Raise TypeError.

End Pandas.

Import Pandas.

(* ===================================================================== *)
(** * class QueryRelaxer *)
(* ===================================================================== *)

Module QueryRelaxer.

(** The instance fields. *)
Record t : Type := mk {
  query : dict value;
  rfds_df : DataFrame;
  data_set_df : DataFrame;
  query_attributes : list string
}.

Definition set_rfds_df (self : t) (df : DataFrame) : t :=
  mk (query self) df (data_set_df self) (query_attributes self).

Definition set_query_attributes (self : t) (l : list string) : t :=
  mk (query self) (rfds_df self) (data_set_df self) l.

(** A method reads and writes the instance and returns or raises; what it
    wrote before raising stays written. *)
Definition method (A : Type) : Type := t -> t * result A.

(** [m1(); m2()]: the second call is not made when the first one raises. *)
Definition and_then {A B : Type} (m1 : method A) (m2 : method B) : method B :=
  fun self =>
    match m1 self with
    | (self1, Ok _) => m2 self1
    | (self1, Raise e) => (self1, Raise e)
    end.

(** [__init__]: [query_attributes] is a fresh list of the query's keys. *)
Definition init (query : dict value) (rfds_df data_set_df : DataFrame) : t :=
  mk query rfds_df data_set_df (keys query).

(** [self.rfds_df = e; return self.rfds_df], where evaluating [e] may
    raise before the assignment. *)
Definition store_rfds_df (self : t) (e : result DataFrame) : t * result DataFrame :=
  match e with
  | Ok df => (set_rfds_df self df, Ok df)
  | Raise x => (self, Raise x)
  end.

Definition drop_query_na : method DataFrame :=
  fun self =>
    store_rfds_df self
      (let* df := dropna (rfds_df self) (query_attributes self) in
       Ok (reset_index df)).

Definition drop_query_rhs : method DataFrame :=
  fun self =>
    store_rfds_df self
      (let* rhs := getitem_column (rfds_df self) "RHS" in
       let mask := isin rhs (query_attributes self) in
       let* df := drop (rfds_df self) (index (getitem_mask (rfds_df self) mask)) in
       Ok (reset_index df)).

(** [sorting_cols = self.query_attributes] names the list held by the
    instance; [sorting_cols.extend([nan_count])] appends to that very list
    and evaluates to [None], which is what [sorting_cols] is bound to from
    then on.  [ascending] is then filled from the list as extended. *)
Definition sort_nan_query_attributes : method DataFrame :=
  fun self =>
    let nan_count := "NaNs" in
    let self := set_rfds_df self
                  (assign (rfds_df self) nan_count (isnull_sum (rfds_df self))) in
    let ascending := [false] in
    let self := set_query_attributes self (query_attributes self ++ [nan_count]) in
    let sorting_cols : option (list string) := None in
    let ascending := ascending ++ map (fun _ => true) (query_attributes self) in
    store_rfds_df self
      (let* sorted := sort_values (rfds_df self) sorting_cols ascending in
       drop_column (reset_index sorted) nan_count).

(** ** Rendering *)

Section Rendering.

(** [str] of a float (the shortest text that reads back as the same
    float) is left open. *)
Variable float_repr : float -> string.

Definition str (x : scalar) : string :=
  match x with
  | SNone => "None"
  | SBool true => "True"
  | SBool false => "False"
  | SInt z => str_of_int z
  | SFloat f => float_repr f
  | SStr s => s
  end.

(** [key == x] for a str [key]. *)
Definition eq_str (key : string) (x : scalar) : bool :=
  match x with
  | SStr s => String.eqb key s
  | _ => false
  end.

(** [rfd[x]]: only a str can be a key of [rfd]. *)
Definition getitem_scalar (rfd : dict scalar) (x : scalar) : result scalar :=
  match x with
  | SStr k => getitem rfd k
  | _ => Raise KeyError
  end.

Definition rfd_to_string (rfd : dict scalar) : result string :=
  let* parts :=
    mapM (fun kv : string * scalar =>
            let (key, val) := kv in
            if String.eqb key "RHS" then Ok ""
            else
              let* rhs := getitem rfd "RHS" in
              if eq_str key rhs then Ok ""
              else
                let* absent := np_isnan val in
                if absent then Ok ""
                else Ok ("(" ++ key ++ " <= " ++ str val ++ ") ")%string)
      rfd in
  let string := ("" ++ String.concat "" parts)%string in
  let* rhs := getitem rfd "RHS" in
  let* bound := getitem_scalar rfd rhs in
  Ok (string ++ "---> (" ++ str rhs ++ " <= " ++ str bound ++ ")")%string.

End Rendering.

(** ** The filter expression *)

Section Expression.

Variable float_repr : float -> string.

(** [repr] of a str (quotes and escapes) is left open. *)
Variable str_repr : string -> string.

(** [repr] of a scalar, as the text of a list shows its elements. *)
Definition repr (x : scalar) : string :=
  match x with
  | SStr s => str_repr s
  | _ => str float_repr x
  end.

(** What ["{}".format(v)] puts in place of the braces. *)
Definition format (v : value) : string :=
  match v with
  | Scalar x => str float_repr x
  | VList l => ("[" ++ String.concat ", " (map repr l) ++ "]")%string
  end.

(** One [k == v] clause; a str value goes between single quotes. *)
Definition clause (kv : string * value) : string :=
  let (k, v) := kv in
  if negb (isinstance_str v)
  then (k ++ " == " ++ format v)%string
  else (k ++ " == '" ++ format v ++ "'")%string.

Definition query_dict_to_expr (query : dict value) : string :=
  String.concat " and " (map clause query).

End Expression.

(** ** Query expansion *)

Definition similar_strings (source : string) (data : option DataFrame)
  (col : string) (threshold : scalar) : result (list scalar) :=
  match data with
  | None => Raise TypeError
  | Some df =>
      let* column := getitem_column df col in
      let* mask :=
        mapM (fun p : Z * scalar =>
                match snd p with
                | SStr word =>
                    let* near :=
                      int_le (Z.of_nat (EditDistance.eval source word)) threshold in
                    Ok (fst p, near)
                | _ => Raise TypeError
                end) column in
      let* hits := getitem_column (getitem_applied df mask) col in
      Ok (map snd hits)
  end.

(** [list(range(int(val - threshold), int(val + threshold + 1)))] for an
    int [val]. *)
Definition val_range (val : Z) (threshold : scalar) : result (list Z) :=
  match number_of_scalar threshold with
  | None => Raise TypeError
  | Some th =>
      let* lo := num_sub (NInt val) th in
      let* a := int_of_number lo in
      let* s := num_add (NInt val) th in
      let* hi := num_add s (NInt 1) in
      let* b := int_of_number hi in
      Ok (range a b)
  end.

(** The body of the loop for one item: [Some v] when [query[key] = v] is
    executed, [None] when no assignment is. *)
Definition relax_value (rfd : dict scalar) (data_set : option DataFrame)
  (key : string) (val : value) : result (option value) :=
  match dict_get rfd key with
  | None => Ok None
  | Some threshold =>
      let* positive := gt_zero threshold in
      if positive then
        match as_int val with
        | Some v =>
            let* l := val_range v threshold in
            Ok (Some (VList (map SInt l)))
        | None =>
            match as_str val with
            | Some source =>
                let* simil_string :=
                  similar_strings source data_set key threshold in
                Ok (Some (VList simil_string))
            | None => Ok None
            end
        end
      else Ok None
  end.

(** The dict objects of the program, by address. *)
Definition store : Type := list (dict value).

Definition load (st : store) (a : nat) : option (dict value) := nth_error st a.

Fixpoint store_set (st : store) (a : nat) (d : dict value) : store :=
  match st, a with
  | [], _ => []
  | _ :: st', O => d :: st'
  | x :: st', S a' => x :: store_set st' a' d
  end.

(** One turn of [for key, val in query.items()]: the [i]-th item is read
    from the dict as it is now. *)
Definition loop_body (rfd : dict scalar) (data_set : option DataFrame)
  (query : nat) (st : store) (i : nat) : store * result unit :=
  match load st query with
  | None => (st, Raise TypeError)
  | Some d =>
      match nth_error d i with
      | None => (st, Ok tt)
      | Some (key, val) =>
          match relax_value rfd data_set key val with
          | Raise e => (st, Raise e)
          | Ok None => (st, Ok tt)
          | Ok (Some v) => (store_set st query (dict_set d key v), Ok tt)
          end
      end
  end.

Fixpoint for_each (body : store -> nat -> store * result unit)
  (st : store) (l : list nat) : store * result unit :=
  match l with
  | [] => (st, Ok tt)
  | i :: l' =>
      match body st i with
      | (st', Ok _) => for_each body st' l'
      | (st', Raise e) => (st', Raise e)
      end
  end.

(** [query] is the address of the caller's dict; the address is what is
    returned.  An address that holds no dict has no [items]. *)
Definition extend_query_ranges (st : store) (query : nat) (rfd : dict scalar)
  (data_set : option DataFrame) : store * result nat :=
  match load st query with
  | None => (st, Raise TypeError)
  | Some d =>
      match for_each (loop_body rfd data_set query) st
              (seq 0 (List.length d)) with
      | (st', Ok _) => (st', Ok query)
      | (st', Raise e) => (st', Raise e)
      end
  end.

End QueryRelaxer.

(* ===================================================================== *)
(** * The documented behaviour, stated on its own *)
(* ===================================================================== *)

Module Documented.

Import QueryRelaxer.

(** The loop of [extend_query_ranges] as a function of the items of the
    query: every item goes through [relax_value] in turn, and the items
    after the one that raises are not reached. *)
Fixpoint relax_items (rfd : dict scalar) (data_set : option DataFrame)
  (d : dict value) : dict value * result unit :=
  match d with
  | [] => ([], Ok tt)
  | (k, v) :: d' =>
      match relax_value rfd data_set k v with
      | Raise e => (d, Raise e)
      | Ok o =>
          let (d'', r) := relax_items rfd data_set d' in
          ((k, match o with Some v' => v' | None => v end) :: d'', r)
      end
  end.

(** The integers [v - t, v - t + 1, ..., v + t] in increasing order. *)
Definition window (v t : Z) : list Z :=
  map (fun i => v - t + Z.of_nat i) (seq 0 (Z.to_nat (2 * t + 1))).

(** The words of a column within edit distance [t] of [source], in the
    order of the column, repeated as often as they occur. *)
Definition within (source : string) (t : Z) (words : list string) : list string :=
  filter (fun w => Z.of_nat (EditDistance.eval source w) <=? t) words.

(** The occurrences of [source] in a column. *)
Definition occurrences (source : string) (words : list string) : list string :=
  filter (String.eqb source) words.

(** The threshold of an attribute is absent from an RFD when the RFD has
    no such key or holds NaN under it. *)
Definition absent (rfd : dict scalar) (k : string) : Prop :=
  dict_get rfd k = None \/ dict_get rfd k = Some (SFloat nan).

(** [x <= 0.0] for a numeric threshold. *)
Definition nonpositive (x : scalar) : bool :=
  match number_of_scalar x with
  | Some n => num_leb n (NFloat fzero)
  | None => false
  end.

(** The constrained, non-dependent attributes of an RFD whose dependent
    attribute is [rhs]. *)
Definition lhs_attributes (rfd : dict scalar) (rhs : string) : dict scalar :=
  filter (fun kv : string * scalar =>
            negb (String.eqb (fst kv) "RHS")
            && negb (String.eqb (fst kv) rhs)
            && negb (isna (snd kv))) rfd.

Section Rendering.

Variable float_repr : float -> string.

Definition constraint (kv : string * scalar) : string :=
  ("(" ++ fst kv ++ " <= " ++ str float_repr (snd kv) ++ ")")%string.

(** The constraints of the left-hand side and then the arrow with the
    dependent attribute, all joined by single spaces. *)
Definition rendering (rfd : dict scalar) (rhs : string) (bound : scalar) : string :=
  String.concat " "
    (map constraint (lhs_attributes rfd rhs)
     ++ [("---> " ++ constraint (rhs, bound))%string]).

End Rendering.

(** [l1] is [l2] with some elements left out: what stays keeps its order. *)
Inductive subsequence {A : Type} : list A -> list A -> Prop :=
| subsequence_nil : subsequence [] []
| subsequence_skip x l1 l2 : subsequence l1 l2 -> subsequence l1 (x :: l2)
| subsequence_keep x l1 l2 : subsequence l1 l2 -> subsequence (x :: l1) (x :: l2).

(** The RHS cell of the record [r] names a query attribute. *)
Definition rhs_in_query (cols attrs : list string) (r : list scalar) : bool :=
  match cell cols r "RHS" with
  | SStr x => existsb (String.eqb x) attrs
  | _ => false
  end.

(** The catalog has an RHS column and a column for every query attribute. *)
Definition schema_ok (self : t) : Prop :=
  forallb (has_column (rfds_df self)) ("RHS" :: query_attributes self) = true.

(** The catalog without the rows that miss a threshold of the query,
    labelled afresh. *)
Definition complete_rows (df : DataFrame) (attrs : list string) : DataFrame :=
  reset_index
    (mkDataFrame (columns df)
       (filter (row_complete (columns df) attrs) (rows df))).

(** The catalog without the rows that share their label with a row whose
    RHS is a query attribute, labelled afresh. *)
Definition free_rows (df : DataFrame) (attrs : list string) : DataFrame :=
  let hit := fun r : Z * list scalar => rhs_in_query (columns df) attrs (snd r) in
  let dropped := map fst (filter hit (rows df)) in
  reset_index
    (mkDataFrame (columns df)
       (filter (fun r => negb (mem_label (fst r) dropped)) (rows df))).

(** The contents of the rows of a catalog, top to bottom. *)
Definition records (df : DataFrame) : list (list scalar) := map snd (rows df).

End Documented.

(* ===================================================================== *)
(** * Worked inputs *)
(* ===================================================================== *)

Module Scenario.

Import QueryRelaxer.

(** The floats 1.0 and 2.0. *)
Definition one : float := S754_finite false 4503599627370496 (-52).
Definition two : float := S754_finite false 4503599627370496 (-51).

(** The query [{age: 30, city: "Rome"}]. *)
Definition query : dict value :=
  [("age", Scalar (SInt 30)); ("city", Scalar (SStr "Rome"))].

(** The RFD [{age: 2, city: 1, RHS: "price"}]. *)
Definition rfd : dict scalar :=
  [("age", SInt 2); ("city", SInt 1); ("RHS", SStr "price")].

(** A dataset whose city column is ["Rome", "Roma", "Turin"]. *)
Definition data_set : DataFrame :=
  mkDataFrame ["city"; "age"]
    [(0, [SStr "Rome"; SInt 30]);
     (1, [SStr "Roma"; SInt 41]);
     (2, [SStr "Turin"; SInt 25])].

(** An RFD that leaves city without a threshold and age at zero. *)
Definition rfd_loose : dict scalar :=
  [("RHS", SStr "price"); ("age", SInt 0); ("city", SFloat nan);
   ("price", SInt 3)].

(** An RFD with a float threshold on height. *)
Definition rfd_height : dict scalar :=
  [("RHS", SStr "price"); ("height", SFloat two); ("price", SInt 3)].

Definition query_height : dict value :=
  [("height", Scalar (SFloat one)); ("flag", Scalar (SBool true))].

(** A catalog of three RFDs; the labels are not the default ones. *)
Definition catalog : DataFrame :=
  mkDataFrame ["RHS"; "age"; "city"; "price"]
    [(5, [SStr "price"; SFloat two; SFloat nan; SFloat one]);
     (7, [SStr "age"; SFloat two; SFloat one; SFloat one]);
     (9, [SStr "price"; SFloat two; SFloat one; SFloat one])].

Definition relaxer : t := init query catalog data_set.

(** A query over an attribute the catalog has no column for. *)
Definition query_zip : dict value := [("zip", Scalar (SInt 84084))].

Definition relaxer_zip : t := init query_zip catalog data_set.

End Scenario.

(* ===================================================================== *)
(** * Further inputs *)
(* ===================================================================== *)

Module Inputs.

Import QueryRelaxer.

(** A catalog with the default labels. *)
Definition catalog : DataFrame :=
  mkDataFrame ["RHS"; "age"; "city"; "price"]
    [(0, [SStr "price"; SFloat Scenario.two; SFloat nan; SFloat Scenario.one]);
     (1, [SStr "age"; SFloat Scenario.two; SFloat Scenario.one; SFloat Scenario.one]);
     (2, [SStr "price"; SFloat Scenario.two; SFloat Scenario.one; SFloat Scenario.one])].

Definition relaxer : t := init Scenario.query catalog Scenario.data_set.

(** A dataset with a missing city. *)
Definition data_set_gap : DataFrame :=
  mkDataFrame ["city"; "age"]
    [(0, [SStr "Rome"; SInt 30]);
     (1, [SFloat nan; SInt 41])].

(** An RFD without an RHS entry. *)
Definition rfd_no_rhs : dict scalar := [("age", SInt 2); ("city", SInt 1)].

(** An RFD with [None] where a threshold is missing. *)
Definition rfd_none : dict scalar :=
  [("RHS", SStr "price"); ("age", SNone); ("price", SInt 3)].

(** A query over a bool attribute. *)
Definition query_flag : dict value :=
  [("flag", Scalar (SBool true)); ("age", Scalar (SInt 30))].

Definition rfd_flag : dict scalar :=
  [("flag", SInt 1); ("age", SInt 2); ("RHS", SStr "price")].

(** A query that uses the name of the RHS entry as an attribute. *)
Definition query_rhs : dict value :=
  [("age", Scalar (SInt 30)); ("RHS", Scalar (SStr "price"))].

End Inputs.

Import QueryRelaxer Documented.

(* ===================================================================== *)
(** * Facts about dicts and the store *)
(* ===================================================================== *)

Section DictFacts.

Context {V : Type}.

Lemma dict_get_in (d : dict V) (k : string) (v : V) :
  NoDup (keys d) -> In (k, v) d -> dict_get d k = Some v.
Proof.
  induction d as [|[k' v'] d IH]; simpl; intros ND HIn; [easy|].
  inversion ND as [|? ? Hfresh ND']; subst.
  destruct HIn as [E|HIn].
  - inversion E; subst. now rewrite String.eqb_refl.
  - destruct (String.eqb_spec k k') as [->|_]; [|now apply IH].
    exfalso. apply Hfresh. change (In (fst (k', v)) (map fst d)).
    now apply in_map.
Qed.

Lemma dict_get_some_in (d : dict V) (k : string) (v : V) :
  dict_get d k = Some v -> In (k, v) d.
Proof.
  induction d as [|[k' v'] d IH]; simpl; [easy|].
  destruct (String.eqb_spec k k') as [->|_]; intros H.
  - inversion H; subst. now left.
  - right. now apply IH.
Qed.

Lemma dict_get_none (d : dict V) (k : string) :
  dict_get d k = None <-> ~ In k (keys d).
Proof.
  induction d as [|[k' v'] d IH]; simpl; [tauto|].
  destruct (String.eqb_spec k k') as [->|Hne].
  - split; [easy|]. intros H. exfalso. apply H. now left.
  - rewrite IH. split; intros H; [intros [E|HIn]|]; try tauto.
    now subst.
Qed.

Lemma dict_set_after (pre : dict V) (k : string) (v v' : V) (post : dict V) :
  ~ In k (keys pre) ->
  dict_set (pre ++ (k, v) :: post) k v' = pre ++ (k, v') :: post.
Proof.
  induction pre as [|[k0 v0] pre IH]; simpl; intros Hfresh.
  - now rewrite String.eqb_refl.
  - destruct (String.eqb_spec k k0) as [->|_]; [tauto|].
    rewrite IH; tauto.
Qed.

End DictFacts.

Lemma load_bound (st : store) (a : nat) (d : dict value) :
  load st a = Some d -> (a < List.length st)%nat.
Proof.
  unfold load. intros H. apply nth_error_Some. now rewrite H.
Qed.

Lemma load_store_set (st : store) (a : nat) (d : dict value) :
  (a < List.length st)%nat -> load (store_set st a d) a = Some d.
Proof.
  revert a. induction st as [|x st IH]; intros [|a]; simpl; try lia; auto.
  intros H. apply IH. lia.
Qed.

Lemma load_store_set_other (st : store) (a b : nat) (d : dict value) :
  a <> b -> load (store_set st a d) b = load st b.
Proof.
  revert a b. induction st as [|x st IH]; intros [|a] [|b] H; simpl; auto;
    try easy.
Qed.

Lemma store_set_twice (st : store) (a : nat) (d1 d2 : dict value) :
  store_set (store_set st a d1) a d2 = store_set st a d2.
Proof.
  revert a. induction st as [|x st IH]; intros [|a]; simpl; auto.
  now rewrite IH.
Qed.

Lemma store_set_load (st : store) (a : nat) (d : dict value) :
  load st a = Some d -> store_set st a d = st.
Proof.
  revert a. induction st as [|x st IH]; intros [|a]; simpl; auto.
  - intros H. now inversion H.
  - intros H. now rewrite IH.
Qed.

(* ===================================================================== *)
(** * The loop of extend_query_ranges *)
(* ===================================================================== *)

Section Loop.

Variable rfd : dict scalar.
Variable data_set : option DataFrame.

Lemma relax_items_keys (d : dict value) :
  keys (fst (relax_items rfd data_set d)) = keys d.
Proof.
  induction d as [|[k v] d IH]; simpl; [easy|].
  destruct (relax_value rfd data_set k v) as [o|e]; [|easy].
  destruct (relax_items rfd data_set d) as [d' r]. simpl in *. now rewrite IH.
Qed.

(** With distinct keys the loop reads every item as the caller wrote it. *)
Lemma for_each_from (q : nat) (rest done : dict value) (st : store) :
  load st q = Some (done ++ rest) ->
  NoDup (keys (done ++ rest)) ->
  for_each (loop_body rfd data_set q) st
    (seq (List.length done) (List.length rest)) =
  (store_set st q (done ++ fst (relax_items rfd data_set rest)),
   snd (relax_items rfd data_set rest)).
Proof.
  revert done st. induction rest as [|[k v] rest IH]; intros done st Hload ND.
  - simpl. now rewrite (store_set_load _ _ _ Hload).
  - assert (Hq : (q < List.length st)%nat) by (eapply load_bound; eauto).
    assert (Hfresh : ~ In k (keys done)).
    { unfold keys in ND. rewrite map_app in ND. simpl in ND.
      apply NoDup_remove_2 in ND. intros HIn. apply ND, in_or_app. now left. }
    assert (Hnth : nth_error (done ++ (k, v) :: rest) (List.length done)
                   = Some (k, v)).
    { rewrite nth_error_app2 by lia. now rewrite Nat.sub_diag. }
    cbn [List.length seq for_each]. unfold loop_body at 1.
    rewrite Hload, Hnth. cbn [relax_items].
    destruct (relax_value rfd data_set k v) as [[v'|]|e].
    + rewrite dict_set_after by exact Hfresh.
      specialize (IH (done ++ [(k, v')])
                    (store_set st q (done ++ (k, v') :: rest))).
      rewrite length_app, Nat.add_comm in IH. cbn [List.length Nat.add] in IH.
      rewrite IH.
      * destruct (relax_items rfd data_set rest) as [d' r]. cbn [fst snd].
        now rewrite store_set_twice, <- app_assoc.
      * rewrite <- app_assoc. now apply load_store_set.
      * rewrite <- app_assoc. unfold keys in *. rewrite map_app in *. exact ND.
    + specialize (IH (done ++ [(k, v)]) st).
      rewrite length_app, Nat.add_comm in IH. cbn [List.length Nat.add] in IH.
      rewrite IH.
      * destruct (relax_items rfd data_set rest) as [d' r]. cbn [fst snd].
        now rewrite <- app_assoc.
      * now rewrite <- app_assoc.
      * now rewrite <- app_assoc.
    + cbn [fst snd]. now rewrite (store_set_load _ _ _ Hload).
Qed.

Lemma extend_query_ranges_items (st : store) (q : nat) (d : dict value) :
  load st q = Some d ->
  NoDup (keys d) ->
  extend_query_ranges st q rfd data_set =
  (store_set st q (fst (relax_items rfd data_set d)),
   match snd (relax_items rfd data_set d) with
   | Ok _ => Ok q
   | Raise e => Raise e
   end).
Proof.
  intros Hload ND. unfold extend_query_ranges. rewrite Hload.
  pose proof (for_each_from q d [] st Hload ND) as Hrun.
  cbn [List.length app] in Hrun. rewrite Hrun.
  now destruct (snd (relax_items rfd data_set d)).
Qed.

(** An item the loop does not assign to keeps its value, whether or not a
    later item raises. *)
Lemma relax_items_get (d : dict value) (k : string) (v : value) :
  NoDup (keys d) ->
  In (k, v) d ->
  dict_get (fst (relax_items rfd data_set d)) k = Some v \/
  exists v', relax_value rfd data_set k v = Ok (Some v') /\
             dict_get (fst (relax_items rfd data_set d)) k = Some v'.
Proof.
  induction d as [|[k0 v0] d IH]; simpl; intros ND HIn; [easy|].
  inversion ND as [|? ? Hfresh ND']; subst.
  destruct HIn as [E|HIn].
  - inversion E; subst.
    destruct (relax_value rfd data_set k v) as [o|e] eqn:Hr.
    + destruct (relax_items rfd data_set d) as [d' r]. simpl.
      rewrite String.eqb_refl. destruct o as [v'|]; [right; eauto | now left].
    + simpl. rewrite String.eqb_refl. now left.
  - assert (Hne : k <> k0).
    { intros ->. apply Hfresh. change (In (fst (k0, v)) (map fst d)).
      now apply in_map. }
    destruct (relax_value rfd data_set k0 v0) as [o|e].
    + specialize (IH ND' HIn).
      destruct (relax_items rfd data_set d) as [d' r]. simpl in *.
      destruct (String.eqb_spec k k0); [contradiction | exact IH].
    + left. simpl. destruct (String.eqb_spec k k0); [contradiction|].
      now apply dict_get_in.
Qed.

(** When the loop runs to its end every item went through [relax_value]. *)
Lemma relax_items_ok (d : dict value) (k : string) (v : value) :
  snd (relax_items rfd data_set d) = Ok tt ->
  NoDup (keys d) ->
  In (k, v) d ->
  exists o, relax_value rfd data_set k v = Ok o /\
            dict_get (fst (relax_items rfd data_set d)) k =
            Some (match o with Some v' => v' | None => v end).
Proof.
  induction d as [|[k0 v0] d IH]; simpl; intros Hok ND HIn; [easy|].
  inversion ND as [|? ? Hfresh ND']; subst.
  destruct (relax_value rfd data_set k0 v0) as [o0|e] eqn:Hr0; [|easy].
  destruct (relax_items rfd data_set d) as [d' r] eqn:Hd. simpl in *.
  destruct HIn as [E|HIn].
  - inversion E; subst. rewrite String.eqb_refl. eauto.
  - destruct (String.eqb_spec k k0) as [->|_].
    + exfalso. apply Hfresh. change (In (fst (k0, v)) (map fst d)).
      now apply in_map.
    + now apply IH.
Qed.

Lemma relax_items_raise (d : dict value) (e : exn) :
  snd (relax_items rfd data_set d) = Raise e ->
  exists k v, In (k, v) d /\ relax_value rfd data_set k v = Raise e.
Proof.
  induction d as [|[k0 v0] d IH]; simpl; [easy|].
  destruct (relax_value rfd data_set k0 v0) as [o0|e0] eqn:Hr0.
  - destruct (relax_items rfd data_set d) as [d' r]. simpl. intros H.
    destruct (IH H) as (k & v & HIn & Hr). eauto.
  - simpl. intros H. inversion H; subst. eauto.
Qed.

Lemma relax_items_total (d : dict value) :
  (forall k v, In (k, v) d -> exists o, relax_value rfd data_set k v = Ok o) ->
  snd (relax_items rfd data_set d) = Ok tt.
Proof.
  intros Hall. destruct (snd (relax_items rfd data_set d)) as [[]|e] eqn:H.
  - reflexivity.
  - apply relax_items_raise in H. destruct H as (k & v & HIn & Hr).
    destruct (Hall k v HIn) as [o Ho]. congruence.
Qed.

End Loop.

(* ===================================================================== *)
(** * Numeric expansion *)
(* ===================================================================== *)

Lemma range_length (a b : Z) :
  a <= b -> Z.of_nat (List.length (range a b)) = b - a.
Proof.
  intros H. unfold range. rewrite length_map, length_seq. lia.
Qed.

Lemma range_window (v t : Z) : range (v - t) (v + t + 1) = window v t.
Proof.
  unfold range, window. do 2 f_equal. lia.
Qed.



Lemma gt_zero_int (t : Z) : gt_zero (SInt t) = Ok (0 <? t).
Proof.
  unfold gt_zero, num_ltb. cbn.
  destruct (Z.compare_spec t 0), (Z.ltb_spec 0 t); cbn; try reflexivity; lia.
Qed.

Lemma val_range_int (v t : Z) : val_range v (SInt t) = Ok (window v t).
Proof.
  cbn. now rewrite range_window.
Qed.



(** After the call, returned or raised, the dict at [q] holds under [k]
    either what the caller put there or what the loop assigned. *)
Lemma extend_query_ranges_slot (st st' : store) (q : nat) (d : dict value)
  (rfd : dict scalar) (ds : option DataFrame) (r : result nat)
  (k : string) (v : value) :
  load st q = Some d ->
  NoDup (keys d) ->
  In (k, v) d ->
  extend_query_ranges st q rfd ds = (st', r) ->
  exists d', load st' q = Some d' /\ keys d' = keys d /\
    (dict_get d' k = Some v \/
     exists v', relax_value rfd ds k v = Ok (Some v') /\
                dict_get d' k = Some v') /\
    (r = Ok q ->
     exists o, relax_value rfd ds k v = Ok o /\
               dict_get d' k = Some (match o with Some v' => v' | None => v end)).
Proof.
  intros Hload ND HIn Hrun.
  rewrite (extend_query_ranges_items rfd ds st q d Hload ND) in Hrun.
  inversion Hrun as [[Hst Hr]]. clear Hrun.
  exists (fst (relax_items rfd ds d)). split; [|split; [|split]].
  - apply load_store_set. eapply load_bound; eauto.
  - apply relax_items_keys.
  - now apply relax_items_get.
  - intros Hok. apply relax_items_ok; auto.
    destruct (snd (relax_items rfd ds d)) as [[]|e]; [reflexivity|discriminate].
Qed.

(** When the call raises, one of the items is to blame. *)
Lemma extend_query_ranges_raises (st st' : store) (q : nat) (d : dict value)
  (rfd : dict scalar) (ds : option DataFrame) (e : exn) :
  load st q = Some d ->
  NoDup (keys d) ->
  extend_query_ranges st q rfd ds = (st', Raise e) ->
  exists k v, In (k, v) d /\ relax_value rfd ds k v = Raise e.
Proof.
  intros Hload ND Hrun.
  rewrite (extend_query_ranges_items rfd ds st q d Hload ND) in Hrun.
  inversion Hrun as [[Hst Hr]]. clear Hrun.
  destruct (snd (relax_items rfd ds d)) as [[]|e'] eqn:Hs; [discriminate|].
  inversion Hr; subst. now apply relax_items_raise.
Qed.


(* ===================================================================== *)
(** * Attributes that are not relaxed *)
(* ===================================================================== *)

Lemma nonpositive_gt_zero (x : scalar) :
  nonpositive x = true -> gt_zero x = Ok false.
Proof.
  unfold nonpositive, gt_zero, num_leb, num_ltb.
  destruct (number_of_scalar x) as [[z|f]|]; [| |discriminate].
  - cbn. destruct (z ?= 0); cbn; congruence.
  - cbn. destruct f as [s|s| |s m e]; cbn; try destruct s; congruence.
Qed.

Lemma gt_zero_nan : gt_zero (SFloat nan) = Ok false.
Proof. reflexivity. Qed.

Lemma relax_value_absent (rfd : dict scalar) (ds : option DataFrame)
  (k : string) (v : value) :
  absent rfd k -> relax_value rfd ds k v = Ok None.
Proof.
  unfold relax_value. intros [H|H]; rewrite H; [reflexivity|].
  now rewrite gt_zero_nan.
Qed.

Lemma relax_value_nonpositive (rfd : dict scalar) (ds : option DataFrame)
  (k : string) (v : value) (th : scalar) :
  dict_get rfd k = Some th ->
  nonpositive th = true ->
  relax_value rfd ds k v = Ok None.
Proof.
  unfold relax_value. intros H Hle. rewrite H.
  now rewrite (nonpositive_gt_zero th Hle).
Qed.

Lemma relax_value_other_type (rfd : dict scalar) (ds : option DataFrame)
  (k : string) (v : value) (th : scalar) :
  dict_get rfd k = Some th ->
  gt_zero th = Ok true ->
  isinstance_int v = false ->
  isinstance_str v = false ->
  relax_value rfd ds k v = Ok None.
Proof.
  unfold relax_value, isinstance_int, isinstance_str. intros H Hpos Hint Hstr.
  rewrite H, Hpos. cbn [bind].
  destruct (as_int v); [discriminate|]. now destruct (as_str v).
Qed.

(** An item on which the loop body assigns nothing keeps its value in the
    caller's dict, and is never the item that makes the call raise. *)
Lemma extend_query_ranges_keeps (st st' : store) (q : nat) (d : dict value)
  (rfd : dict scalar) (ds : option DataFrame) (r : result nat)
  (k : string) (v : value) :
  load st q = Some d ->
  NoDup (keys d) ->
  In (k, v) d ->
  relax_value rfd ds k v = Ok None ->
  extend_query_ranges st q rfd ds = (st', r) ->
  (exists d', load st' q = Some d' /\ dict_get d' k = Some v) /\
  (forall e, r = Raise e ->
     exists k' v', k' <> k /\ In (k', v') d /\
                   relax_value rfd ds k' v' = Raise e).
Proof.
  intros Hload ND HIn Hstep Hrun. split.
  - destruct (extend_query_ranges_slot st st' q d rfd ds r k v
                Hload ND HIn Hrun) as (d' & Hd' & _ & [Hsame|Hnew] & _).
    + eauto.
    + destruct Hnew as (v' & Hv' & _). congruence.
  - intros e ->.
    destruct (extend_query_ranges_raises st st' q d rfd ds e Hload ND Hrun)
      as (k' & v' & HIn' & Hr').
    exists k', v'. split; [|now split].
    intros ->. pose proof (dict_get_in d k _ ND HIn) as E1.
    pose proof (dict_get_in d k _ ND HIn') as E2. congruence.
Qed.

(** C5.  When the RFD has no threshold for the query attribute [k] (no
    such key, or NaN under it) or has a threshold that is at most zero,
    the loop body assigns nothing for [k] and does not raise; after the
    call, however it ended, the query still holds the very value [v] under
    [k]; and if the call raised, another attribute raised. *)
Theorem extend_query_ranges_no_relaxation
  (st st' : store) (q : nat) (d : dict value) (rfd : dict scalar)
  (ds : option DataFrame) (r : result nat) (k : string) (v : value) :
  load st q = Some d ->
  NoDup (keys d) ->
  In (k, v) d ->
  absent rfd k \/
    (exists th, dict_get rfd k = Some th /\ nonpositive th = true) ->
  extend_query_ranges st q rfd ds = (st', r) ->
  relax_value rfd ds k v = Ok None /\
  (exists d', load st' q = Some d' /\ dict_get d' k = Some v) /\
  (forall e, r = Raise e ->
     exists k' v', k' <> k /\ In (k', v') d /\
                   relax_value rfd ds k' v' = Raise e).
Proof.
  intros Hload ND HIn Hth Hrun.
  assert (Hstep : relax_value rfd ds k v = Ok None).
  { destruct Hth as [Habs|(th & Hget & Hle)].
    - now apply relax_value_absent.
    - now apply relax_value_nonpositive with th. }
  split; [exact Hstep|].
  now apply (extend_query_ranges_keeps st st' q d rfd ds r k v).
Qed.

(** C10, as the code has it.  Under a positive threshold a query value
    that is neither an instance of int nor a str (a float, for one) is left
    as it is: the loop body assigns nothing and does not raise, and after
    the call the query still holds the value.  An assignment is made only
    for an instance of int, which is replaced by its range, or for a str,
    which is replaced by the answer of the similarity matcher.  The
    instances of int are the ints and the bools, True and False standing
    for 1 and 0: each of them is replaced by its range whenever the
    arithmetic of the range does not raise. *)
Theorem extend_query_ranges_by_type
  (st st' : store) (q : nat) (d : dict value) (rfd : dict scalar)
  (ds : option DataFrame) (r : result nat) (k : string) (v : value)
  (th : scalar) :
  load st q = Some d ->
  NoDup (keys d) ->
  In (k, v) d ->
  dict_get rfd k = Some th ->
  gt_zero th = Ok true ->
  extend_query_ranges st q rfd ds = (st', r) ->
  ((isinstance_int v = false /\ isinstance_str v = false) ->
   relax_value rfd ds k v = Ok None /\
   exists d', load st' q = Some d' /\ dict_get d' k = Some v) /\
  (forall f, v = Scalar (SFloat f) ->
   exists d', load st' q = Some d' /\ dict_get d' k = Some (Scalar (SFloat f))) /\
  (forall v', relax_value rfd ds k v = Ok (Some v') ->
     (exists z l, as_int v = Some z /\ val_range z th = Ok l /\
                  v' = VList (map SInt l)) \/
     (exists s l, v = Scalar (SStr s) /\
                  similar_strings s ds k th = Ok l /\ v' = VList l)) /\
  (forall z l, as_int v = Some z -> val_range z th = Ok l ->
     relax_value rfd ds k v = Ok (Some (VList (map SInt l))) /\
     (r = Ok q ->
      exists d', load st' q = Some d' /\
                 dict_get d' k = Some (VList (map SInt l)))).
Proof.
  intros Hload ND HIn Hget Hpos Hrun.
  assert (Hkeep : isinstance_int v = false /\ isinstance_str v = false ->
                  relax_value rfd ds k v = Ok None /\
                  exists d', load st' q = Some d' /\ dict_get d' k = Some v).
  { intros [Hint Hstr].
    assert (Hstep : relax_value rfd ds k v = Ok None)
      by now apply relax_value_other_type with th.
    split; [exact Hstep|].
    now apply (extend_query_ranges_keeps st st' q d rfd ds r k v). }
  split; [exact Hkeep|]. split; [|split].
  - intros f ->. now apply Hkeep.
  - intros v'. unfold relax_value. rewrite Hget, Hpos. cbn [bind].
    destruct (as_int v) as [z|] eqn:Hz.
    + destruct (val_range z th) as [l|e] eqn:Hl; cbn [bind]; [|discriminate].
      intros E. inversion E. left. eauto.
    + destruct v as [[| | | |s]|l]; cbn [as_str]; try discriminate;
        try (intros E; discriminate E).
      destruct (similar_strings s ds k th) as [l|e] eqn:Hl; cbn [bind];
        [|discriminate].
      intros E. inversion E. right. eauto.
  - intros z l Hz Hl.
    assert (Hstep : relax_value rfd ds k v = Ok (Some (VList (map SInt l)))).
    { unfold relax_value. rewrite Hget, Hpos. cbn [bind]. now rewrite Hz, Hl. }
    split; [exact Hstep|]. intros ->.
    destruct (extend_query_ranges_slot st st' q d rfd ds (Ok q) k v
                Hload ND HIn Hrun) as (d' & Hd' & _ & _ & Hok).
    destruct (Hok eq_refl) as (o & Ho & Hslot).
    exists d'. split; [exact Hd'|]. rewrite Hstep in Ho.
    inversion Ho; subst o. exact Hslot.
Qed.

(** Whatever the loop assigns is a list. *)
Lemma relax_value_list (rfd : dict scalar) (ds : option DataFrame)
  (k : string) (v v' : value) :
  relax_value rfd ds k v = Ok (Some v') -> exists l, v' = VList l.
Proof.
  unfold relax_value.
  destruct (dict_get rfd k) as [th|]; [|discriminate].
  destruct (gt_zero th) as [[|]|e]; cbn [bind]; try discriminate.
  destruct (as_int v) as [z|].
  - destruct (val_range z th); cbn [bind]; [|discriminate].
    intros E. inversion E. eauto.
  - destruct (as_str v) as [s|]; [|discriminate].
    destruct (similar_strings s ds k th); cbn [bind]; [|discriminate].
    intros E. inversion E. eauto.
Qed.

(** C7, as the code has it.  [extend_query_ranges] builds no new query:
    what it returns is the address it was given, and the relaxed values
    are written into the caller's dict.  The dict keeps its keys in their
    order; under each key it holds the caller's value or a list; a key that
    is no key of the RFD keeps the caller's value; no other dict of the
    store is written; and the call returns when, and only when, no
    attribute raises. *)
Theorem extend_query_ranges_in_place
  (st st' : store) (q : nat) (d : dict value) (rfd : dict scalar)
  (ds : option DataFrame) (r : result nat) :
  load st q = Some d ->
  NoDup (keys d) ->
  extend_query_ranges st q rfd ds = (st', r) ->
  (forall q', r = Ok q' -> q' = q) /\
  ((forall k v, In (k, v) d -> exists o, relax_value rfd ds k v = Ok o) ->
   r = Ok q) /\
  (forall q', r = Ok q' ->
     forall k v, In (k, v) d -> exists o, relax_value rfd ds k v = Ok o) /\
  (forall a, a <> q -> load st' a = load st a) /\
  exists d', load st' q = Some d' /\ keys d' = keys d /\
    (forall k v, In (k, v) d ->
       dict_get d' k = Some v \/ exists l, dict_get d' k = Some (VList l)) /\
    (forall k v, In (k, v) d -> dict_get rfd k = None ->
       dict_get d' k = Some v).
Proof.
  intros Hload ND Hrun.
  pose proof Hrun as Hrun'.
  rewrite (extend_query_ranges_items rfd ds st q d Hload ND) in Hrun'.
  inversion Hrun' as [[Hst Hr]]. clear Hrun'.
  split; [|split; [|split; [|split]]].
  - intros q'. destruct (snd (relax_items rfd ds d)); congruence.
  - intros Hall. now rewrite (relax_items_total rfd ds d Hall).
  - intros q' Hq k v HIn.
    assert (Hok : snd (relax_items rfd ds d) = Ok tt).
    { destruct (snd (relax_items rfd ds d)) as [[]|e]; [reflexivity|].
      rewrite Hq in Hr. discriminate. }
    destruct (relax_items_ok rfd ds d k v Hok ND HIn) as (o & Ho & _). eauto.
  - intros a Hne. apply load_store_set_other. congruence.
  - exists (fst (relax_items rfd ds d)). split; [|split; [|split]].
    + apply load_store_set. eapply load_bound; eauto.
    + apply relax_items_keys.
    + intros k v HIn.
      destruct (relax_items_get rfd ds d k v ND HIn) as [H|(v' & Hv' & H)].
      * now left.
      * right. destruct (relax_value_list _ _ _ _ _ Hv') as [l ->]. eauto.
    + intros k v HIn Hnone.
      destruct (relax_items_get rfd ds d k v ND HIn) as [H|(v' & Hv' & H)].
      * exact H.
      * unfold relax_value in Hv'. rewrite Hnone in Hv'. discriminate.
Qed.

(* ===================================================================== *)
(** * The candidate filter *)
(* ===================================================================== *)

Lemma map_snd_combine {A B : Type} (l1 : list A) (l2 : list B) :
  List.length l1 = List.length l2 -> map snd (combine l1 l2) = l2.
Proof.
  revert l2. induction l1 as [|x l1 IH]; intros [|y l2]; simpl; try easy.
  intros H. f_equal. apply IH. lia.
Qed.

Lemma labels_length (n : nat) : List.length (map Z.of_nat (seq 0 n)) = n.
Proof. now rewrite length_map, length_seq. Qed.

Lemma reset_index_records (df : DataFrame) :
  records (reset_index df) = records df.
Proof.
  unfold records, reset_index. simpl. apply map_snd_combine.
  now rewrite labels_length, length_map.
Qed.

Lemma reset_index_length (df : DataFrame) :
  List.length (rows (reset_index df)) = List.length (rows df).
Proof.
  unfold reset_index. simpl.
  rewrite length_combine, labels_length, length_map. lia.
Qed.

(** A frame whose rows are the same records with the same columns resets
    to the same frame. *)
Lemma reset_index_ext (df1 df2 : DataFrame) :
  columns df1 = columns df2 ->
  records df1 = records df2 ->
  reset_index df1 = reset_index df2.
Proof.
  unfold reset_index, records. intros Hc Hr. rewrite Hc. f_equal.
  rewrite Hr. do 3 f_equal.
  rewrite <- (length_map snd (rows df1)), <- (length_map snd (rows df2)).
  now rewrite Hr.
Qed.

Lemma reset_index_idempotent (df : DataFrame) :
  reset_index (reset_index df) = reset_index df.
Proof.
  apply reset_index_ext; [reflexivity | apply reset_index_records].
Qed.

Lemma filter_records (p : list scalar -> bool) (rs : list (Z * list scalar)) :
  map snd (filter (fun r => p (snd r)) rs) = filter p (map snd rs).
Proof.
  induction rs as [|r rs IH]; simpl; [easy|].
  destruct (p (snd r)); simpl; now rewrite IH.
Qed.

Lemma filter_all {A : Type} (p : A -> bool) (l : list A) :
  (forall x, In x l -> p x = true) -> filter p l = l.
Proof.
  induction l as [|x l IH]; simpl; intros H; [easy|].
  rewrite (H x) by now left. f_equal. apply IH. intros y Hy. apply H. now right.
Qed.

Lemma filter_subsequence {A : Type} (p : A -> bool) (l : list A) :
  subsequence (filter p l) l.
Proof.
  induction l as [|x l IH]; simpl; [constructor|].
  destruct (p x); now constructor.
Qed.

Lemma subsequence_map {A B : Type} (f : A -> B) (l1 l2 : list A) :
  subsequence l1 l2 -> subsequence (map f l1) (map f l2).
Proof.
  induction 1; simpl; now constructor.
Qed.

(** The rows picked by the mask of a predicate are the rows that satisfy
    it. *)
Lemma select_rows_filter {A : Type} (p : A -> bool) (rs : list A) :
  select_rows rs (map p rs) = filter p rs.
Proof.
  induction rs as [|r rs IH]; simpl; [easy|].
  destruct (p r); now rewrite IH.
Qed.

Lemma rhs_in_query_spec (cols attrs : list string) (r : list scalar) :
  rhs_in_query cols attrs r = false ->
  forall a, In a attrs -> cell cols r "RHS" <> SStr a.
Proof.
  unfold rhs_in_query. intros H a HIn E. rewrite E in H.
  assert (existsb (String.eqb a) attrs = true); [|congruence].
  apply existsb_exists. exists a. split; [exact HIn | apply String.eqb_refl].
Qed.

Lemma complete_spec (cols attrs : list string) (r : Z * list scalar) :
  row_complete cols attrs r = true ->
  forall a, In a attrs -> isna (cell cols (snd r) a) = false.
Proof.
  unfold row_complete. rewrite forallb_forall. intros H a HIn.
  apply negb_true_iff. now apply H.
Qed.

Lemma mem_label_In (i : Z) (l : list Z) : mem_label i l = true <-> In i l.
Proof.
  unfold mem_label. rewrite existsb_exists. split.
  - intros (j & Hj & E). apply Z.eqb_eq in E. now subst.
  - intros H. exists i. split; [exact H | apply Z.eqb_refl].
Qed.

Lemma mask_is_rhs_in_query (df : DataFrame) (attrs : list string) :
  map snd
    (isin (map (fun r => (fst r, cell (columns df) (snd r) "RHS")) (rows df))
       attrs)
  = map (fun r => rhs_in_query (columns df) attrs (snd r)) (rows df).
Proof.
  unfold isin. rewrite !map_map. apply map_ext. intros r. reflexivity.
Qed.

(** What [drop_query_na] does, case by case. *)
Lemma drop_query_na_unfold (self : t) :
  drop_query_na self =
  if forallb (has_column (rfds_df self)) (query_attributes self)
  then
    let df := complete_rows (rfds_df self) (query_attributes self) in
    (set_rfds_df self df, Ok df)
  else (self, Raise KeyError).
Proof.
  unfold drop_query_na, dropna.
  now destruct (forallb (has_column (rfds_df self)) (query_attributes self)).
Qed.

(** What [drop_query_rhs] does, case by case: the labels handed to [drop]
    are index labels of the catalog, so [drop] does not raise. *)
Lemma drop_query_rhs_unfold (self : t) :
  drop_query_rhs self =
  if has_column (rfds_df self) "RHS"
  then
    let df := free_rows (rfds_df self) (query_attributes self) in
    (set_rfds_df self df, Ok df)
  else (self, Raise KeyError).
Proof.
  unfold drop_query_rhs, getitem_column.
  destruct (has_column (rfds_df self) "RHS"); [|reflexivity].
  cbn [bind]. unfold getitem_mask, index. cbn [rows columns].
  rewrite mask_is_rhs_in_query, select_rows_filter.
  unfold drop, index. cbn [rows columns].
  set (hit := fun r : Z * list scalar =>
                rhs_in_query (columns (rfds_df self)) (query_attributes self)
                  (snd r)).
  assert (Hsub : forallb (fun i => mem_label i (map fst (rows (rfds_df self))))
                   (map fst (filter hit (rows (rfds_df self)))) = true).
  { apply forallb_forall. intros i Hi. apply mem_label_In.
    apply in_map_iff in Hi. destruct Hi as (r & <- & Hr).
    apply filter_In in Hr. apply in_map. tauto. }
  rewrite Hsub. reflexivity.
Qed.

Lemma in_records (df : DataFrame) (r : list scalar) :
  In r (records df) <-> exists i, In (i, r) (rows df).
Proof.
  unfold records. rewrite in_map_iff. split.
  - intros ([i r'] & E & H). simpl in E. subst. eauto.
  - intros (i & H). now exists (i, r).
Qed.

Lemma filter_complete_records (cols attrs : list string)
  (rs : list (Z * list scalar)) :
  map snd (filter (row_complete cols attrs) rs)
  = filter (fun x => row_complete cols attrs (0, x)) (map snd rs).
Proof.
  now rewrite <- filter_records.
Qed.

Section Filtered.

Variable df : DataFrame.
Variable attrs : list string.

Lemma complete_rows_columns : columns (complete_rows df attrs) = columns df.
Proof. reflexivity. Qed.

Lemma free_rows_columns : columns (free_rows df attrs) = columns df.
Proof. reflexivity. Qed.

Lemma complete_rows_has_column (c : string) :
  has_column (complete_rows df attrs) c = has_column df c.
Proof. reflexivity. Qed.

Lemma free_rows_has_column (c : string) :
  has_column (free_rows df attrs) c = has_column df c.
Proof. reflexivity. Qed.

Lemma complete_rows_records :
  records (complete_rows df attrs)
  = filter (fun x => row_complete (columns df) attrs (0, x)) (records df).
Proof.
  unfold complete_rows. rewrite reset_index_records. unfold records.
  cbn [rows]. apply filter_complete_records.
Qed.

Lemma free_rows_records :
  records (free_rows df attrs)
  = map snd
      (filter (fun r => negb (mem_label (fst r)
                 (map fst (filter (fun r => rhs_in_query (columns df) attrs (snd r))
                             (rows df)))))
         (rows df)).
Proof.
  unfold free_rows. cbv zeta. now rewrite reset_index_records.
Qed.

Lemma complete_rows_subsequence :
  subsequence (records (complete_rows df attrs)) (records df).
Proof.
  rewrite complete_rows_records. apply filter_subsequence.
Qed.

Lemma free_rows_subsequence :
  subsequence (records (free_rows df attrs)) (records df).
Proof.
  rewrite free_rows_records. apply subsequence_map, filter_subsequence.
Qed.

(** Every record that is left has a threshold for every query attribute. *)
Lemma complete_rows_sound (row : list scalar) (a : string) :
  In row (records (complete_rows df attrs)) ->
  In a attrs ->
  isna (cell (columns df) row a) = false.
Proof.
  rewrite complete_rows_records. intros H Ha. apply filter_In in H.
  exact (complete_spec _ _ _ (proj2 H) a Ha).
Qed.

(** Every record that is left has an RHS outside the query. *)
Lemma free_rows_sound (row : list scalar) :
  In row (records (free_rows df attrs)) ->
  In row (records df) /\ rhs_in_query (columns df) attrs row = false.
Proof.
  rewrite free_rows_records. intros H. apply in_map_iff in H.
  destruct H as (r & <- & Hr). split.
  - apply filter_In in Hr. unfold records. apply in_map. tauto.
  - apply filter_In in Hr. destruct Hr as [HIn Hkeep].
    apply negb_true_iff in Hkeep.
    destruct (rhs_in_query (columns df) attrs (snd r)) eqn:Hhit; [|reflexivity].
    assert (mem_label (fst r)
              (map fst (filter (fun r => rhs_in_query (columns df) attrs (snd r))
                          (rows df))) = true); [|congruence].
    apply mem_label_In. apply in_map. apply filter_In. now split.
Qed.

Lemma complete_rows_idempotent :
  complete_rows (complete_rows df attrs) attrs = complete_rows df attrs.
Proof.
  unfold complete_rows at 1. rewrite complete_rows_columns.
  unfold complete_rows at 2. apply reset_index_ext; [reflexivity|].
  unfold records at 1 2. cbn [rows]. rewrite !filter_complete_records.
  change (map snd (rows (complete_rows df attrs)))
    with (records (complete_rows df attrs)).
  rewrite complete_rows_records.
  apply filter_all. intros x Hx. apply filter_In in Hx. exact (proj2 Hx).
Qed.

Lemma free_rows_idempotent :
  free_rows (free_rows df attrs) attrs = free_rows df attrs.
Proof.
  set (once := free_rows df attrs).
  assert (Hnone : filter (fun r => rhs_in_query (columns once) attrs (snd r))
                    (rows once) = []).
  { destruct (filter (fun r => rhs_in_query (columns once) attrs (snd r))
                (rows once)) as [|r l] eqn:Hf; [reflexivity|].
    assert (Hr : In r (filter (fun r => rhs_in_query (columns once) attrs (snd r))
                         (rows once))) by (rewrite Hf; now left).
    apply filter_In in Hr. destruct Hr as [HIn Hhit].
    assert (Hrec : In (snd r) (records once)) by (unfold records; now apply in_map).
    apply free_rows_sound in Hrec. unfold once in Hhit.
    rewrite free_rows_columns in Hhit. destruct Hrec. congruence. }
  unfold free_rows at 1. cbv zeta. fold once. rewrite Hnone. cbn [map].
  rewrite filter_all by reflexivity.
  transitivity (reset_index once); [apply reset_index_ext; reflexivity|].
  unfold once, free_rows. cbv zeta. apply reset_index_idempotent.
Qed.

End Filtered.

(** C2.  Run [drop_query_na] and then [drop_query_rhs].  When the catalog
    has an RHS column and a column for every query attribute the two calls
    return; and whenever they return, the catalog they leave has, in every
    row, a threshold that is not missing under each query attribute and an
    RHS that is no query attribute. *)
Theorem filter_postcondition (self self' : t) (r : result DataFrame) :
  and_then drop_query_na drop_query_rhs self = (self', r) ->
  (schema_ok self -> exists df, r = Ok df) /\
  (forall df, r = Ok df ->
     rfds_df self' = df /\
     query_attributes self' = query_attributes self /\
     forall row a, In row (records df) -> In a (query_attributes self) ->
       isna (cell (columns df) row a) = false /\
       cell (columns df) row "RHS" <> SStr a).
Proof.
  unfold and_then, schema_ok. rewrite drop_query_na_unfold. cbn [forallb].
  destruct (forallb (has_column (rfds_df self)) (query_attributes self)) eqn:Hna.
  2:{ intros E. inversion E; subst. split; intros; [|discriminate].
      rewrite andb_false_r in *. discriminate. }
  cbv zeta. rewrite drop_query_rhs_unfold.
  cbn [set_rfds_df rfds_df query_attributes].
  rewrite complete_rows_has_column.
  destruct (has_column (rfds_df self) "RHS") eqn:Hrhs.
  2:{ intros E. inversion E; subst. split; intros; discriminate. }
  cbv zeta. intros E. inversion E as [[Hself Hr]]. clear E. split; [eauto|].
  intros df Hdf. inversion Hdf as [Edf]. clear Hdf.
  split; [reflexivity|]. split; [reflexivity|].
  intros row a Hrow Ha. rewrite free_rows_columns, complete_rows_columns.
  apply free_rows_sound in Hrow. destruct Hrow as [Hrow Hfree].
  rewrite complete_rows_columns in Hfree. split.
  - now apply complete_rows_sound with (attrs := query_attributes self).
  - now apply rhs_in_query_spec with (attrs := query_attributes self).
Qed.

(** C8, as the code has it.  A query attribute that is no column of the
    catalog makes [drop_query_na] raise KeyError; the catalog held by the
    instance stays as it was and no filtered catalog is produced. *)
Theorem drop_query_na_missing_column (self : t) (a : string) :
  In a (query_attributes self) ->
  has_column (rfds_df self) a = false ->
  drop_query_na self = (self, Raise KeyError).
Proof.
  intros HIn Hmiss. rewrite drop_query_na_unfold.
  destruct (forallb (has_column (rfds_df self)) (query_attributes self)) eqn:H;
    [|reflexivity].
  rewrite forallb_forall in H. rewrite (H a HIn) in Hmiss. discriminate.
Qed.

(** [drop_query_na] applied to what it left finds nothing to drop. *)
Lemma drop_query_na_again (self self' : t) (r : result DataFrame) :
  drop_query_na self = (self', r) -> drop_query_na self' = (self', r).
Proof.
  rewrite drop_query_na_unfold.
  destruct (forallb (has_column (rfds_df self)) (query_attributes self)) eqn:Hc.
  - cbv zeta. intros E. inversion E as [[Hself Hr]]. clear E.
    rewrite drop_query_na_unfold. cbn [set_rfds_df rfds_df query_attributes].
    assert (Hc' : forallb (has_column (complete_rows (rfds_df self)
                                         (query_attributes self)))
                    (query_attributes self) = true) by exact Hc.
    rewrite Hc'. cbv zeta. now rewrite complete_rows_idempotent.
  - intros E. inversion E; subst. rewrite drop_query_na_unfold. now rewrite Hc.
Qed.

Lemma drop_query_rhs_again (self self' : t) (r : result DataFrame) :
  drop_query_rhs self = (self', r) -> drop_query_rhs self' = (self', r).
Proof.
  rewrite drop_query_rhs_unfold.
  destruct (has_column (rfds_df self) "RHS") eqn:Hc.
  - cbv zeta. intros E. inversion E as [[Hself Hr]]. clear E.
    rewrite drop_query_rhs_unfold. cbn [set_rfds_df rfds_df query_attributes].
    rewrite free_rows_has_column, Hc. cbv zeta.
    now rewrite free_rows_idempotent.
  - intros E. inversion E; subst. rewrite drop_query_rhs_unfold. now rewrite Hc.
Qed.

(** C6.  Each of [drop_query_na] and [drop_query_rhs] leaves the columns
    alone and keeps the remaining records in the order they had; and
    calling either one on the instance it has just been called on changes
    nothing and answers the same. *)
Theorem filters_keep_order_and_are_idempotent
  (self self' : t) (r : result DataFrame) :
  (drop_query_na self = (self', r) ->
     (forall df, r = Ok df ->
        rfds_df self' = df /\
        columns df = columns (rfds_df self) /\
        subsequence (records df) (records (rfds_df self))) /\
     drop_query_na self' = (self', r)) /\
  (drop_query_rhs self = (self', r) ->
     (forall df, r = Ok df ->
        rfds_df self' = df /\
        columns df = columns (rfds_df self) /\
        subsequence (records df) (records (rfds_df self))) /\
     drop_query_rhs self' = (self', r)).
Proof.
  split; intros Hrun.
  - split; [|now apply drop_query_na_again with self].
    rewrite drop_query_na_unfold in Hrun.
    destruct (forallb (has_column (rfds_df self)) (query_attributes self)).
    + cbv zeta in Hrun. inversion Hrun as [[Hself Hr]].
      intros df E. inversion E; subst df. cbn [set_rfds_df rfds_df].
      split; [reflexivity|]. split; [reflexivity|].
      apply complete_rows_subsequence.
    + inversion Hrun; subst. intros; discriminate.
  - split; [|now apply drop_query_rhs_again with self].
    rewrite drop_query_rhs_unfold in Hrun.
    destruct (has_column (rfds_df self) "RHS").
    + cbv zeta in Hrun. inversion Hrun as [[Hself Hr]].
      intros df E. inversion E; subst df. cbn [set_rfds_df rfds_df].
      split; [reflexivity|]. split; [reflexivity|].
      apply free_rows_subsequence.
    + inversion Hrun; subst. intros; discriminate.
Qed.

(* ===================================================================== *)
(** * The ranker *)
(* ===================================================================== *)

(** C1 (what the code does in place of the documented ranking).  On every
    instance [sort_nan_query_attributes] raises ValueError and returns no
    catalog: [sort_values] is handed [None] for [by], which stands for one
    sort key, together with at least two [ascending] flags.  Before it
    raises, the method has written a "NaNs" column into the catalog of the
    instance and appended "NaNs" to its query attributes. *)
Theorem sort_nan_query_attributes_raises (self : t) :
  sort_nan_query_attributes self =
  (set_query_attributes
     (set_rfds_df self
        (assign (rfds_df self) "NaNs" (isnull_sum (rfds_df self))))
     (query_attributes self ++ ["NaNs"]),
   Raise ValueError).
Proof.
  unfold sort_nan_query_attributes. cbv zeta.
  cbn [set_query_attributes set_rfds_df rfds_df query_attributes].
  unfold sort_values.
  rewrite length_app, length_map, length_app. cbn [List.length].
  rewrite Nat.add_comm with (n := List.length (query_attributes self)).
  reflexivity.
Qed.

(* ===================================================================== *)
(** * The similarity matcher *)
(* ===================================================================== *)

Lemma eval_cons (x y : ascii) (a b : string) :
  EditDistance.eval (String x a) (String y b)
  = Nat.min (S (EditDistance.eval a (String y b)))
      (Nat.min (S (EditDistance.eval (String x a) b))
         ((if Ascii.eqb x y then 0 else 1) + EditDistance.eval a b))%nat.
Proof. reflexivity. Qed.

Lemma eval_nil_l (b : string) : EditDistance.eval "" b = String.length b.
Proof. now destruct b. Qed.

Lemma eval_nil_r (a : string) : EditDistance.eval a "" = String.length a.
Proof. now destruct a. Qed.

(** Distance zero is equality. *)
Lemma eval_zero (a b : string) : EditDistance.eval a b = 0%nat <-> a = b.
Proof.
  revert b. induction a as [|x a IH]; intros b.
  - rewrite eval_nil_l. destruct b; simpl; split; congruence.
  - destruct b as [|y b].
    + rewrite eval_nil_r. simpl. split; congruence.
    + rewrite eval_cons. destruct (Ascii.eqb_spec x y) as [->|Hne].
      * split.
        -- intros H. f_equal. apply IH. lia.
        -- intros E. inversion E; subst.
           rewrite (proj2 (IH b) eq_refl). lia.
      * split; [lia | congruence].
Qed.

Section Matcher.

Variable source : string.
Variable df : DataFrame.
Variable col : string.
Variable near : string -> bool.

Local Abbreviation cell_of := (fun r : Z * list scalar => cell (columns df) (snd r) col).

(** One mask entry per row, computed from the word in the row. *)
Lemma mask_of_words (f : Z * scalar -> result (Z * bool))
  (rs : list (Z * list scalar)) (words : list string) :
  (forall i w, f (i, SStr w) = Ok (i, near w)) ->
  map cell_of rs = map SStr words ->
  exists mask, mapM f (map (fun r => (fst r, cell_of r)) rs) = Ok mask /\
               map snd mask = map near words.
Proof.
  intros Hf. revert words.
  induction rs as [|r rs IH]; intros [|w words]; simpl; try easy.
  - intros _. now exists [].
  - intros E. inversion E as [[Hw Hrest]].
    destruct (IH words Hrest) as (mask & Hmask & Hsnd).
    rewrite Hw, Hf. cbn [bind]. rewrite Hmask. cbn [bind].
    exists ((fst r, near w) :: mask). simpl. now rewrite Hsnd.
Qed.

(** The cells of the selected rows are the selected words. *)
Lemma select_rows_words (rs : list (Z * list scalar)) (words : list string) :
  map cell_of rs = map SStr words ->
  map cell_of (select_rows rs (map near words)) = map SStr (filter near words).
Proof.
  revert words.
  induction rs as [|r rs IH]; intros [|w words]; simpl; try easy.
  intros E. inversion E as [[Hw Hrest]].
  destruct (near w); simpl; rewrite ?Hw, (IH words Hrest); reflexivity.
Qed.

End Matcher.

(** The matcher under any numeric bound, on a column with a row. *)
Lemma similar_strings_numeric (source : string) (df : DataFrame) (col : string)
  (th : scalar) (n : number) (words : list string) :
  has_column df col = true ->
  rows df <> [] ->
  map (fun r => cell (columns df) (snd r) col) (rows df) = map SStr words ->
  number_of_scalar th = Some n ->
  similar_strings source (Some df) col th
  = Ok (map SStr
          (filter (fun w =>
                     num_leb (NInt (Z.of_nat (EditDistance.eval source w))) n)
             words)).
Proof.
  intros Hcol Hrows Hwords Hth. unfold similar_strings, getitem_column.
  rewrite Hcol. cbn [bind].
  set (near := fun w => num_leb (NInt (Z.of_nat (EditDistance.eval source w))) n).
  destruct (mask_of_words df col near
              (fun p : Z * scalar =>
                 match snd p with
                 | SStr word =>
                     let* near :=
                       int_le (Z.of_nat (EditDistance.eval source word)) th in
                     Ok (fst p, near)
                 | _ => Raise TypeError
                 end)
              (rows df) words) as (mask & Hmask & Hsnd).
  - intros i w. cbn [snd fst]. unfold int_le. now rewrite Hth.
  - exact Hwords.
  - rewrite Hmask. cbn [bind].
    assert (Hkey : getitem_applied df mask = getitem_mask df mask).
    { destruct mask as [|b mask]; [|reflexivity]. exfalso.
      destruct (rows df) as [|r rs]; [now apply Hrows|].
      destruct words as [|w ws]; discriminate. }
    rewrite Hkey.
    assert (Hcol' : has_column (getitem_mask df mask) col = true) by exact Hcol.
    rewrite Hcol'. cbn [bind]. f_equal.
    unfold getitem_mask. cbn [rows columns]. rewrite map_map. cbn [snd].
    rewrite Hsnd. now apply select_rows_words.
Qed.

Lemma within_zero (source : string) (words : list string) :
  within source 0 words = occurrences source words.
Proof.
  unfold within, occurrences. apply filter_ext. intros w.
  destruct (String.eqb_spec source w) as [E|Hne].
  - apply eval_zero in E. rewrite E. reflexivity.
  - apply Z.leb_gt.
    assert (EditDistance.eval source w <> 0%nat) by now rewrite eval_zero.
    lia.
Qed.

(** C4 (where the code misses the documented answer).  On a dataset with
    no rows [similar_strings] raises KeyError for every source, column and
    bound, where the list of the similar strings of the column is the
    empty list: the key that [apply] gives back is no boolean mask, the
    frame selected with it has no column, and the lookup of [col] in it
    fails. *)
Theorem similar_strings_empty_column (source col : string)
  (cols : list string) (th : scalar) :
  similar_strings source (Some (mkDataFrame cols [])) col th = Raise KeyError.
Proof.
  unfold similar_strings, getitem_column, has_column. cbn [columns rows map].
  destruct (existsb (String.eqb col) cols); reflexivity.
Qed.

(** On a dataset with at least one row and a column [col] whose cells are
    the strings [words], top to bottom, and for an int bound [t],
    [similar_strings] returns exactly the words of the column within edit
    distance [t] of [source], in the order of the column and as often as
    they occur there; for [t = 0] these are the occurrences of [source]
    itself. *)
Theorem similar_strings_within (source : string) (df : DataFrame)
  (col : string) (t : Z) (words : list string) :
  has_column df col = true ->
  rows df <> [] ->
  map (fun r => cell (columns df) (snd r) col) (rows df) = map SStr words ->
  0 <= t ->
  similar_strings source (Some df) col (SInt t)
  = Ok (map SStr (within source t words)) /\
  (t = 0 ->
   similar_strings source (Some df) col (SInt t)
   = Ok (map SStr (occurrences source words))).
Proof.
  intros Hcol Hrows Hwords Ht.
  assert (Hrun : similar_strings source (Some df) col (SInt t)
                 = Ok (map SStr (within source t words))).
  { rewrite (similar_strings_numeric source df col (SInt t) (NInt t) words
               Hcol Hrows Hwords eq_refl).
    reflexivity. }
  split; [exact Hrun|].
  intros ->. now rewrite Hrun, within_zero.
Qed.

(* ===================================================================== *)
(** * Rendering an RFD *)
(* ===================================================================== *)

Lemma append_nil_r (s : string) : (s ++ "")%string = s.
Proof. induction s; simpl; congruence. Qed.

Lemma append_assoc (a b c : string) :
  ((a ++ b) ++ c)%string = (a ++ (b ++ c))%string.
Proof. induction a; simpl; congruence. Qed.

Lemma concat_empty_cons (h : string) (l : list string) :
  String.concat "" (h :: l) = (h ++ String.concat "" l)%string.
Proof.
  destruct l; simpl; [now rewrite append_nil_r | reflexivity].
Qed.

(** Joining with spaces and ending every piece but the last with a space
    give the same text. *)
Lemma concat_space_last (xs : list string) (y : string) :
  String.concat " " (xs ++ [y])
  = (String.concat "" (map (fun x => x ++ " ")%string xs) ++ y)%string.
Proof.
  induction xs as [|x xs IH]; [reflexivity|].
  cbn [map]. rewrite concat_empty_cons, append_assoc, <- IH.
  cbn [app String.concat].
  destruct (xs ++ [y]) eqn:E; [now destruct xs|].
  now rewrite append_assoc.
Qed.

Section RenderingFacts.

Variable float_repr : float -> string.
Variable rfd : dict scalar.
Variable rhs : string.
Variable bound : scalar.

Hypothesis rhs_designated : dict_get rfd "RHS" = Some (SStr rhs).
Hypothesis rhs_bounded : dict_get rfd rhs = Some bound.

Local Abbreviation keep :=
  (fun kv : string * scalar =>
     negb (String.eqb (fst kv) "RHS")
     && negb (String.eqb (fst kv) rhs)
     && negb (isna (snd kv))).

Local Abbreviation piece :=
  (fun kv : string * scalar =>
     let (key, val) := kv in
     if String.eqb key "RHS" then Ok ""
     else
       let* r := getitem rfd "RHS" in
       if eq_str key r then Ok ""
       else
         let* absent := np_isnan val in
         if absent then Ok ""
         else Ok ("(" ++ key ++ " <= " ++ str float_repr val ++ ") ")%string).

(** The pieces of the list comprehension, over any part of the items. *)
Lemma pieces (l : dict scalar) :
  (forall k v, In (k, v) l -> k <> "RHS" -> k <> rhs ->
               number_of_scalar v <> None) ->
  exists parts,
    mapM piece l = Ok parts /\
    String.concat "" parts
    = String.concat ""
        (map (fun x => x ++ " ")%string
           (map (constraint float_repr) (filter keep l))).
Proof.
  induction l as [|[k v] l IH]; intros Hnum.
  - exists []. split; reflexivity.
  - destruct IH as (parts & Hparts & Htext).
    { intros k' v' HIn. apply Hnum. now right. }
    cbn [mapM filter fst snd]. rewrite Hparts.
    destruct (String.eqb_spec k "RHS") as [->|HneR].
    + cbn [bind negb andb]. exists ("" :: parts). split; [reflexivity|].
      now rewrite concat_empty_cons.
    + unfold getitem. rewrite rhs_designated. cbn [bind eq_str negb andb].
      destruct (String.eqb_spec k rhs) as [->|Hner].
      * cbn [bind negb andb]. exists ("" :: parts). split; [reflexivity|].
        now rewrite concat_empty_cons.
      * cbn [negb andb].
        assert (Hv : number_of_scalar v <> None)
          by (apply (Hnum k v); [now left | assumption | assumption]).
        destruct v as [|b|z|f|s]; cbn [number_of_scalar] in Hv;
          try congruence.
        -- cbn [np_isnan bind isna negb map].
           eexists. split; [reflexivity|].
           rewrite !concat_empty_cons, Htext. unfold constraint.
           cbn [fst snd]. now rewrite !append_assoc.
        -- cbn [np_isnan bind isna negb map].
           eexists. split; [reflexivity|].
           rewrite !concat_empty_cons, Htext. unfold constraint.
           cbn [fst snd]. now rewrite !append_assoc.
        -- destruct f as [sg|sg| |sg m e]; cbn [np_isnan bind isna negb map].
           all: eexists; (split; [reflexivity|]).
           all: rewrite ?concat_empty_cons, Htext; unfold constraint;
             cbn [fst snd]; now rewrite ?append_assoc.
Qed.

(** C9.  For an RFD that names its dependent attribute [rhs] under "RHS",
    holds a bound for [rhs], and holds a number or NaN under every other
    attribute, [rfd_to_string] returns the constraints
    "(attr <= threshold)" of the attributes that are neither "RHS" nor
    [rhs] nor without a threshold, in the order of the RFD, and then
    "---> (rhs <= bound)", all joined by single spaces. *)
Theorem rfd_to_string_rendering :
  (forall k v, In (k, v) rfd -> k <> "RHS" -> k <> rhs ->
               number_of_scalar v <> None) ->
  rfd_to_string float_repr rfd = Ok (rendering float_repr rfd rhs bound).
Proof.
  intros Hnum. destruct (pieces rfd Hnum) as (parts & Hparts & Htext).
  unfold rfd_to_string. rewrite Hparts. cbn [bind].
  unfold getitem. rewrite rhs_designated. cbn [bind getitem_scalar].
  unfold getitem. rewrite rhs_bounded. cbn [bind str].
  f_equal. unfold rendering. rewrite concat_space_last.
  unfold lhs_attributes. rewrite <- Htext. unfold constraint. cbn [fst snd].
  reflexivity.
Qed.

End RenderingFacts.

(* ===================================================================== *)
(** * The worked inputs, run *)
(* ===================================================================== *)

(** The end-to-end scenario: age becomes [28 .. 32], city becomes
    ["Rome", "Roma"], in the caller's own dict. *)
Example scenario_relaxed :
  extend_query_ranges [Scenario.query] 0 Scenario.rfd (Some Scenario.data_set)
  = ([[("age", VList [SInt 28; SInt 29; SInt 30; SInt 31; SInt 32]);
       ("city", VList [SStr "Rome"; SStr "Roma"])]],
     Ok 0%nat).
Proof. vm_compute. reflexivity. Qed.

Example scenario_distances :
  EditDistance.eval "Rome" "Roma" = 1%nat /\
  EditDistance.eval "Rome" "Turin" = 5%nat.
Proof. split; vm_compute; reflexivity. Qed.

(** A bool is an int to [isinstance]: True under threshold 1 becomes
    [0, 1, 2]. *)
Example bool_is_expanded :
  relax_value [("flag", SInt 1)] None "flag" (Scalar (SBool true))
  = Ok (Some (VList [SInt 0; SInt 1; SInt 2])).
Proof. reflexivity. Qed.

(** A float threshold goes through float arithmetic. *)
Example float_threshold :
  val_range 30 (SFloat Scenario.two) = Ok [28; 29; 30; 31; 32].
Proof. vm_compute. reflexivity. Qed.

(** A str value without a dataset raises, after age has been overwritten
    in the caller's dict. *)
Example scenario_without_dataset :
  extend_query_ranges [Scenario.query] 0 Scenario.rfd None
  = ([[("age", VList [SInt 28; SInt 29; SInt 30; SInt 31; SInt 32]);
       ("city", Scalar (SStr "Rome"))]],
     Raise TypeError).
Proof. vm_compute. reflexivity. Qed.

(** The ranker on the worked catalog. *)
Example scenario_ranker_raises :
  snd (sort_nan_query_attributes Scenario.relaxer) = Raise ValueError /\
  query_attributes (fst (sort_nan_query_attributes Scenario.relaxer))
  = ["age"; "city"; "NaNs"].
Proof. split; reflexivity. Qed.

Lemma scenario_query_keys : NoDup (keys Scenario.query).
Proof.
  repeat constructor; simpl; intuition discriminate.
Defined.

Lemma scenario_query_height_keys : NoDup (keys Scenario.query_height).
Proof.
  repeat constructor; simpl; intuition discriminate.
Defined.

Lemma filter_postcondition_witness :
  exists df,
    snd (and_then drop_query_na drop_query_rhs Scenario.relaxer) = Ok df /\
    forall row a,
      In row (records df) -> In a (query_attributes Scenario.relaxer) ->
      isna (cell (columns df) row a) = false /\
      cell (columns df) row "RHS" <> SStr a.
Proof.
  destruct (filter_postcondition Scenario.relaxer _ _ (surjective_pairing _))
    as [Htotal Hsound].
  destruct (Htotal eq_refl) as [df Hdf].
  exists df. split; [exact Hdf|]. apply (Hsound df Hdf).
Defined.


Lemma similar_strings_within_witness :
  similar_strings "Rome" (Some Scenario.data_set) "city" (SInt 1)
  = Ok (map SStr (within "Rome" 1 ["Rome"; "Roma"; "Turin"])).
Proof.
  refine (proj1 (similar_strings_within "Rome" Scenario.data_set "city" 1
                   ["Rome"; "Roma"; "Turin"] eq_refl _ eq_refl _));
    discriminate.
Defined.

Lemma extend_query_ranges_no_relaxation_witness :
  exists d',
    load (fst (extend_query_ranges [Scenario.query] 0 Scenario.rfd_loose None)) 0
    = Some d' /\
    dict_get d' "city" = Some (Scalar (SStr "Rome")).
Proof.
  exact (proj1 (proj2
    (extend_query_ranges_no_relaxation
       [Scenario.query] _ 0 Scenario.query Scenario.rfd_loose None _
       "city" (Scalar (SStr "Rome"))
       eq_refl scenario_query_keys (or_intror (or_introl eq_refl))
       (or_introl (or_intror eq_refl)) (surjective_pairing _)))).
Defined.

Lemma filters_keep_order_and_are_idempotent_witness :
  drop_query_na (fst (drop_query_na Scenario.relaxer))
  = drop_query_na Scenario.relaxer.
Proof.
  rewrite (surjective_pairing (drop_query_na Scenario.relaxer)) at 2.
  exact (proj2 (proj1
    (filters_keep_order_and_are_idempotent Scenario.relaxer _ _)
    (surjective_pairing _))).
Defined.

Lemma extend_query_ranges_in_place_witness :
  snd (extend_query_ranges [Scenario.query] 0 Scenario.rfd
         (Some Scenario.data_set)) = Ok 0%nat.
Proof.
  refine (proj1 (proj2
    (extend_query_ranges_in_place
       [Scenario.query] _ 0 Scenario.query Scenario.rfd
       (Some Scenario.data_set) _
       eq_refl scenario_query_keys (surjective_pairing _))) _).
  intros k v [E|[E|[]]]; inversion E; subst; eexists; vm_compute; reflexivity.
Defined.

(** C7, counterexample to a fresh query: the scenario's call returns the
    address of the query it was given, and the dict at that address is no
    longer the one the caller built. *)
Lemma extend_query_ranges_new_query_counterexample :
  snd (extend_query_ranges [Scenario.query] 0 Scenario.rfd
         (Some Scenario.data_set)) = Ok 0%nat /\
  load (fst (extend_query_ranges [Scenario.query] 0 Scenario.rfd
               (Some Scenario.data_set))) 0
  <> load [Scenario.query] 0.
Proof.
  split; [vm_compute; reflexivity|]. vm_compute. discriminate.
Qed.

(** C10, counterexample to ranges for exactly the int type: True is a
    bool and no int, and under the threshold 1 the call replaces it by
    [0, 1, 2] in the query. *)
Lemma extend_query_ranges_exact_int_counterexample :
  (forall z, Scalar (SBool true) <> Scalar (SInt z)) /\
  In ("flag", Scalar (SBool true)) Inputs.query_flag /\
  gt_zero (SInt 1) = Ok true /\
  dict_get Inputs.rfd_flag "flag" = Some (SInt 1) /\
  exists st' d',
    extend_query_ranges [Inputs.query_flag] 0 Inputs.rfd_flag None
    = (st', Ok 0%nat) /\
    load st' 0 = Some d' /\
    dict_get d' "flag" = Some (VList [SInt 0; SInt 1; SInt 2]).
Proof.
  split; [discriminate|]. split; [now left|].
  split; [reflexivity|]. split; [reflexivity|].
  eexists. eexists. split; [vm_compute; reflexivity|].
  split; reflexivity.
Qed.

Lemma drop_query_na_missing_column_witness :
  drop_query_na Scenario.relaxer_zip = (Scenario.relaxer_zip, Raise KeyError).
Proof.
  exact (drop_query_na_missing_column Scenario.relaxer_zip "zip"
           (or_introl eq_refl) eq_refl).
Defined.

(** C8, counterexample to a silent empty catalog: "zip" is a query
    attribute and no column of the catalog, and [drop_query_na] does not
    return a catalog, empty or not. *)
Lemma drop_query_na_silent_counterexample :
  In "zip" (query_attributes Scenario.relaxer_zip) /\
  has_column (rfds_df Scenario.relaxer_zip) "zip" = false /\
  ~ (exists self' df,
       drop_query_na Scenario.relaxer_zip = (self', Ok df) /\ rows df = []).
Proof.
  split; [now left|]. split; [reflexivity|].
  intros (self' & df & Hrun & _). vm_compute in Hrun. discriminate.
Qed.

Lemma rfd_to_string_rendering_witness :
  rfd_to_string (fun _ => "nan") Scenario.rfd_loose
  = Ok "(age <= 0) ---> (price <= 3)".
Proof.
  refine (rfd_to_string_rendering (fun _ => "nan") Scenario.rfd_loose
            "price" (SInt 3) eq_refl eq_refl _).
  intros k v HIn H1 H2. simpl in HIn.
  repeat (destruct HIn as [E|HIn]; [inversion E; subst; try discriminate|]);
    try contradiction; try (now elim H1); try (now elim H2).
Defined.

Lemma extend_query_ranges_by_type_witness :
  exists d',
    load (fst (extend_query_ranges [Scenario.query_height] 0
                 Scenario.rfd_height None)) 0 = Some d' /\
    dict_get d' "height" = Some (Scalar (SFloat Scenario.one)).
Proof.
  exact (proj1 (proj2
    (extend_query_ranges_by_type
       [Scenario.query_height] _ 0 Scenario.query_height Scenario.rfd_height
       None _ "height" (Scalar (SFloat Scenario.one)) (SFloat Scenario.two)
       eq_refl scenario_query_height_keys (or_introl eq_refl) eq_refl eq_refl
       (surjective_pairing _)))
    Scenario.one eq_refl).
Defined.

(** [sort_values] with well-formed arguments does sort, and keeps rows
    with equal keys in the order they had. *)
Example sort_values_sorts :
  match sort_values Scenario.catalog (Some ["RHS"]) [true] with
  | Ok df => index df = [7; 5; 9]
  | Raise _ => False
  end.
Proof. vm_compute. reflexivity. Qed.

(** Rows that share an index label with a dropped row are dropped too. *)
Example drop_query_rhs_shared_label :
  snd (drop_query_rhs
         (init Scenario.query
            (mkDataFrame ["RHS"; "age"]
               [(0, [SStr "age"; SInt 1]); (0, [SStr "price"; SInt 1])])
            Scenario.data_set))
  = Ok (mkDataFrame ["RHS"; "age"] []).
Proof. reflexivity. Qed.

(* ===================================================================== *)
(** * More on the candidate filter *)
(* ===================================================================== *)

Lemma map_fst_combine {A B : Type} (l1 : list A) (l2 : list B) :
  List.length l1 = List.length l2 -> map fst (combine l1 l2) = l1.
Proof.
  revert l2. induction l1 as [|x l1 IH]; intros [|y l2]; simpl; try easy.
  intros H. f_equal. apply IH. lia.
Qed.

Lemma fresh_labels_NoDup (n : nat) : NoDup (map Z.of_nat (seq 0 n)).
Proof.
  generalize 0%nat. induction n as [|n IH]; intros a; simpl; constructor.
  - rewrite in_map_iff. intros (b & E & Hb). apply in_seq in Hb. lia.
  - apply IH.
Qed.

Lemma reset_index_index (df : DataFrame) :
  index (reset_index df) = map Z.of_nat (seq 0 (List.length (rows df))).
Proof.
  unfold index, reset_index. cbn [rows]. apply map_fst_combine.
  now rewrite labels_length, length_map.
Qed.

Lemma records_length (df : DataFrame) :
  List.length (records df) = List.length (rows df).
Proof. unfold records. apply length_map. Qed.

Lemma filter_filter {A : Type} (p q : A -> bool) (l : list A) :
  filter p (filter q l) = filter (fun x => q x && p x) l.
Proof.
  induction l as [|x l IH]; simpl; [easy|].
  destruct (q x); simpl; [destruct (p x)|]; now rewrite IH.
Qed.

(** Rows with distinct labels are told apart by their labels. *)
Lemma label_determines_row (rs : list (Z * list scalar)) (r1 r2 : Z * list scalar) :
  NoDup (map fst rs) -> In r1 rs -> In r2 rs -> fst r1 = fst r2 -> r1 = r2.
Proof.
  induction rs as [|r rs IH]; simpl; intros ND H1 H2 E; [easy|].
  inversion ND as [|? ? Hfresh ND']; subst.
  destruct H1 as [->|H1], H2 as [->|H2]; auto.
  - exfalso. apply Hfresh. rewrite E. now apply in_map.
  - exfalso. apply Hfresh. rewrite <- E. now apply in_map.
Qed.

(** With distinct labels, dropping by label drops the rows that were hit and
    no other row. *)
Lemma free_rows_exact (df : DataFrame) (attrs : list string) :
  NoDup (index df) ->
  records (free_rows df attrs)
  = filter (fun row => negb (rhs_in_query (columns df) attrs row)) (records df).
Proof.
  intros ND. rewrite free_rows_records. unfold records.
  rewrite <- filter_records. f_equal. apply filter_ext_in. intros r Hr.
  f_equal.
  destruct (rhs_in_query (columns df) attrs (snd r)) eqn:Hhit.
  - apply mem_label_In. apply in_map. apply filter_In. now split.
  - destruct (mem_label (fst r)
                (map fst (filter (fun r => rhs_in_query (columns df) attrs (snd r))
                            (rows df)))) eqn:Hmem; [|reflexivity].
    apply mem_label_In in Hmem. apply in_map_iff in Hmem.
    destruct Hmem as (r' & E & Hr'). apply filter_In in Hr'.
    destruct Hr' as [HIn' Hhit'].
    assert (r' = r) by (apply (label_determines_row (rows df)); auto).
    subst r'. congruence.
Qed.

(** X1.  When [drop_query_na] returns, the catalog it leaves holds exactly
    the records that have a threshold under every query attribute, in the
    order they had, under the labels 0, 1, 2, ... *)
Theorem drop_query_na_exact (self self' : t) (df : DataFrame) :
  drop_query_na self = (self', Ok df) ->
  records df
  = filter (fun row =>
              forallb (fun a => negb (isna (cell (columns (rfds_df self)) row a)))
                (query_attributes self))
      (records (rfds_df self)) /\
  index df = map Z.of_nat (seq 0 (List.length (records df))).
Proof.
  rewrite drop_query_na_unfold.
  destruct (forallb (has_column (rfds_df self)) (query_attributes self));
    [|discriminate].
  cbv zeta. intros E. inversion E as [[Hself Hdf]]. clear E. split.
  - apply complete_rows_records.
  - unfold complete_rows. rewrite reset_index_index, reset_index_records.
    now rewrite records_length.
Qed.

(** X2.  When the index labels of the catalog are pairwise distinct and
    [drop_query_rhs] returns, the catalog it leaves holds exactly the
    records whose RHS is no query attribute, in the order they had. *)
Theorem drop_query_rhs_exact (self self' : t) (df : DataFrame) :
  NoDup (index (rfds_df self)) ->
  drop_query_rhs self = (self', Ok df) ->
  records df
  = filter (fun row =>
              negb (rhs_in_query (columns (rfds_df self))
                      (query_attributes self) row))
      (records (rfds_df self)).
Proof.
  intros ND. rewrite drop_query_rhs_unfold.
  destruct (has_column (rfds_df self) "RHS"); [|discriminate].
  cbv zeta. intros E. inversion E as [[Hself Hdf]]. clear E.
  now apply free_rows_exact.
Qed.

Lemma complete_rows_index_NoDup (df : DataFrame) (attrs : list string) :
  NoDup (index (complete_rows df attrs)).
Proof.
  unfold complete_rows. rewrite reset_index_index. apply fresh_labels_NoDup.
Qed.

(** X3.  [drop_query_na] followed by [drop_query_rhs], whatever the labels
    of the catalog were: when the two calls return, the catalog holds
    exactly the records that have a threshold under every query attribute
    and an RHS that is no query attribute, in the order they had. *)
Theorem filter_pipeline_exact (self self' : t) (df : DataFrame) :
  and_then drop_query_na drop_query_rhs self = (self', Ok df) ->
  records df
  = filter (fun row =>
              forallb (fun a => negb (isna (cell (columns (rfds_df self)) row a)))
                (query_attributes self)
              && negb (rhs_in_query (columns (rfds_df self))
                         (query_attributes self) row))
      (records (rfds_df self)).
Proof.
  unfold and_then. rewrite drop_query_na_unfold.
  destruct (forallb (has_column (rfds_df self)) (query_attributes self));
    [|discriminate].
  cbv beta iota zeta. rewrite drop_query_rhs_unfold.
  cbn [set_rfds_df rfds_df query_attributes].
  rewrite complete_rows_has_column.
  destruct (has_column (rfds_df self) "RHS"); [|discriminate].
  cbv zeta. intros E. inversion E as [[Hself Hdf]]. clear E.
  rewrite free_rows_exact by apply complete_rows_index_NoDup.
  rewrite complete_rows_columns, complete_rows_records.
  apply filter_filter.
Qed.

Lemma filter_comm {A : Type} (p q : A -> bool) (l : list A) :
  filter p (filter q l) = filter q (filter p l).
Proof.
  rewrite !filter_filter. apply filter_ext. intros x. apply andb_comm.
Qed.

Lemma free_rows_reset (df : DataFrame) (attrs : list string) :
  reset_index (free_rows df attrs) = free_rows df attrs.
Proof. unfold free_rows. cbv zeta. apply reset_index_idempotent. Qed.

Lemma complete_rows_reset (df : DataFrame) (attrs : list string) :
  reset_index (complete_rows df attrs) = complete_rows df attrs.
Proof. unfold complete_rows. apply reset_index_idempotent. Qed.

(** The two filters, as functions of the catalog, commute on a catalog
    with distinct labels. *)
Lemma free_complete_comm (df : DataFrame) (attrs : list string) :
  NoDup (index df) ->
  free_rows (complete_rows df attrs) attrs
  = complete_rows (free_rows df attrs) attrs.
Proof.
  intros ND.
  assert (Hrec : records (free_rows (complete_rows df attrs) attrs)
                 = records (complete_rows (free_rows df attrs) attrs)).
  { rewrite free_rows_exact by apply complete_rows_index_NoDup.
    rewrite complete_rows_columns, !complete_rows_records.
    rewrite free_rows_columns, free_rows_exact by exact ND.
    apply filter_comm. }
  rewrite <- (free_rows_reset (complete_rows df attrs) attrs).
  rewrite <- (complete_rows_reset (free_rows df attrs) attrs).
  apply reset_index_ext; [reflexivity | exact Hrec].
Qed.

(** X4.  On a catalog that has the RHS column and a column for every
    query attribute, and whose index labels are pairwise distinct, the two
    filters can be called in either order: the instance and the catalog
    returned are the same. *)
Theorem filters_commute (self : t) :
  schema_ok self ->
  NoDup (index (rfds_df self)) ->
  and_then drop_query_na drop_query_rhs self
  = and_then drop_query_rhs drop_query_na self.
Proof.
  unfold schema_ok. cbn [forallb]. intros Hschema ND.
  apply andb_true_iff in Hschema. destruct Hschema as [Hrhs Hna].
  unfold and_then. rewrite drop_query_na_unfold, Hna. cbv zeta.
  rewrite (drop_query_rhs_unfold self), Hrhs. cbv beta iota zeta.
  rewrite drop_query_rhs_unfold, drop_query_na_unfold.
  cbn [set_rfds_df rfds_df query_attributes].
  rewrite complete_rows_has_column, Hrhs.
  assert (Hna' : forallb (has_column (free_rows (rfds_df self)
                                        (query_attributes self)))
                   (query_attributes self) = true) by exact Hna.
  rewrite Hna'. cbv zeta.
  now rewrite free_complete_comm.
Qed.

(* ===================================================================== *)
(** * More on query expansion *)
(* ===================================================================== *)

(** A value the loop has assigned is not assigned again. *)
Lemma relax_value_settled (rfd : dict scalar) (ds : option DataFrame)
  (k : string) (v v' : value) :
  relax_value rfd ds k v = Ok (Some v') -> relax_value rfd ds k v' = Ok None.
Proof.
  intros H. destruct (relax_value_list rfd ds k v v' H) as [l ->].
  unfold relax_value in *.
  destruct (dict_get rfd k) as [th|]; [|discriminate].
  destruct (gt_zero th) as [[|]|e]; cbn [bind] in *; try discriminate;
    reflexivity.
Qed.

Lemma relax_items_settled (rfd : dict scalar) (ds : option DataFrame)
  (d : dict value) :
  snd (relax_items rfd ds d) = Ok tt ->
  relax_items rfd ds (fst (relax_items rfd ds d))
  = (fst (relax_items rfd ds d), Ok tt).
Proof.
  induction d as [|[k v] d IH]; simpl; [easy|].
  destruct (relax_value rfd ds k v) as [o|e] eqn:Hstep; [|discriminate].
  destruct (relax_items rfd ds d) as [d' r] eqn:Hd. cbn [fst snd] in *.
  intros Hr. specialize (IH Hr). cbn [relax_items].
  assert (Hagain : relax_value rfd ds k
                     (match o with Some v' => v' | None => v end) = Ok None).
  { destruct o as [v'|]; [now apply relax_value_settled with v | exact Hstep]. }
  rewrite Hagain, IH. reflexivity.
Qed.

(** X5.  Calling [extend_query_ranges] again with the same RFD and dataset
    on a query it has relaxed and returned changes nothing: the lists it
    wrote are neither ints nor strs, and the values it left alone are left
    alone again. *)
Theorem extend_query_ranges_twice
  (st st1 : store) (q : nat) (d : dict value) (rfd : dict scalar)
  (ds : option DataFrame) :
  load st q = Some d ->
  NoDup (keys d) ->
  extend_query_ranges st q rfd ds = (st1, Ok q) ->
  extend_query_ranges st1 q rfd ds = (st1, Ok q).
Proof.
  intros Hload ND Hrun.
  rewrite (extend_query_ranges_items rfd ds st q d Hload ND) in Hrun.
  inversion Hrun as [[Hst Hr]]. clear Hrun.
  assert (Hok : snd (relax_items rfd ds d) = Ok tt).
  { destruct (snd (relax_items rfd ds d)) as [[]|e]; [reflexivity|discriminate]. }
  set (d1 := fst (relax_items rfd ds d)) in *.
  assert (Hload1 : load (store_set st q d1) q = Some d1).
  { apply load_store_set. eapply load_bound; eauto. }
  assert (ND1 : NoDup (keys d1)).
  { unfold d1. now rewrite relax_items_keys. }
  rewrite (extend_query_ranges_items rfd ds _ q d1 Hload1 ND1).
  unfold d1. rewrite (relax_items_settled rfd ds d Hok). cbn [fst snd].
  now rewrite store_set_twice, Hok.
Qed.

Lemma dict_get_app_l {V : Type} (d1 d2 : dict V) (k : string) :
  In k (keys d1) -> dict_get (d1 ++ d2) k = dict_get d1 k.
Proof.
  induction d1 as [|[k0 v0] d1 IH]; simpl; [easy|].
  destruct (String.eqb_spec k k0) as [->|Hne]; [easy|].
  intros [E|H]; [congruence | now apply IH].
Qed.

Lemma dict_get_app_r {V : Type} (d1 d2 : dict V) (k : string) :
  ~ In k (keys d1) -> dict_get (d1 ++ d2) k = dict_get d2 k.
Proof.
  induction d1 as [|[k0 v0] d1 IH]; simpl; [easy|].
  destruct (String.eqb_spec k k0) as [->|Hne]; [tauto|].
  intros H. apply IH. tauto.
Qed.

(** Where the loop stops when an item raises. *)
Lemma relax_items_split (rfd : dict scalar) (ds : option DataFrame)
  (d : dict value) (e : exn) :
  snd (relax_items rfd ds d) = Raise e ->
  exists pre k v post,
    d = pre ++ (k, v) :: post /\
    relax_value rfd ds k v = Raise e /\
    snd (relax_items rfd ds pre) = Ok tt /\
    fst (relax_items rfd ds d) = fst (relax_items rfd ds pre) ++ (k, v) :: post.
Proof.
  induction d as [|[k0 v0] d IH]; simpl; [easy|].
  destruct (relax_value rfd ds k0 v0) as [o|e0] eqn:Hstep.
  - destruct (relax_items rfd ds d) as [d' r] eqn:Hd. cbn [fst snd] in *.
    intros Hr. destruct (IH Hr) as (pre & k & v & post & -> & Hk & Hpre & Hfst).
    exists ((k0, v0) :: pre), k, v, post.
    split; [reflexivity|]. split; [exact Hk|].
    cbn [relax_items]. rewrite Hstep.
    destruct (relax_items rfd ds pre) as [pre' rp]. cbn [fst snd] in *.
    split; [exact Hpre|]. now rewrite Hfst.
  - cbn [fst snd]. intros E. inversion E; subst.
    exists [], k0, v0, d. repeat split; auto.
Qed.

(** X6.  The update is not undone when the call raises: the attributes
    before the one that raised hold their relaxed values in the caller's
    dict, and the one that raised and those after it hold the values the
    caller gave them. *)
Theorem extend_query_ranges_partial
  (st st' : store) (q : nat) (d : dict value) (rfd : dict scalar)
  (ds : option DataFrame) (e : exn) :
  load st q = Some d ->
  NoDup (keys d) ->
  extend_query_ranges st q rfd ds = (st', Raise e) ->
  exists pre k v post d',
    d = pre ++ (k, v) :: post /\
    relax_value rfd ds k v = Raise e /\
    load st' q = Some d' /\
    (forall k0 v0, In (k0, v0) pre ->
       exists o, relax_value rfd ds k0 v0 = Ok o /\
                 dict_get d' k0 = Some (match o with Some v' => v' | None => v0 end)) /\
    (forall k1 v1, In (k1, v1) ((k, v) :: post) -> dict_get d' k1 = Some v1).
Proof.
  intros Hload ND Hrun.
  rewrite (extend_query_ranges_items rfd ds st q d Hload ND) in Hrun.
  inversion Hrun as [[Hst Hr]]. clear Hrun.
  assert (Hraise : snd (relax_items rfd ds d) = Raise e).
  { destruct (snd (relax_items rfd ds d)); [discriminate | congruence]. }
  destruct (relax_items_split rfd ds d e Hraise)
    as (pre & k & v & post & Hd & Hk & Hpre & Hfst).
  exists pre, k, v, post, (fst (relax_items rfd ds d)).
  split; [exact Hd|]. split; [exact Hk|]. split.
  { apply load_store_set. eapply load_bound; eauto. }
  subst d. unfold keys in ND. rewrite map_app in ND.
  assert (NDpre : NoDup (keys pre)) by (eapply NoDup_app_remove_r; eauto).
  assert (NDpost : NoDup (keys ((k, v) :: post)))
    by (eapply NoDup_app_remove_l; eauto).
  rewrite Hfst. split.
  - intros k0 v0 HIn.
    destruct (relax_items_ok rfd ds pre k0 v0 Hpre NDpre HIn) as (o & Ho & Hget).
    exists o. split; [exact Ho|].
    rewrite dict_get_app_l; [exact Hget|].
    rewrite relax_items_keys. change (In (fst (k0, v0)) (map fst pre)).
    now apply in_map.
  - intros k1 v1 HIn.
    rewrite dict_get_app_r.
    + now apply dict_get_in.
    + rewrite relax_items_keys. intros Hpre1.
      assert (Hpost1 : In k1 (map fst ((k, v) :: post))).
      { change (In (fst (k1, v1)) (map fst ((k, v) :: post))). now apply in_map. }
      clear - ND Hpre1 Hpost1. fold (keys pre) in *.
      induction pre as [|[k0 v0] pre IH]; simpl in *; [easy|].
      inversion ND as [|? ? Hfresh ND']; subst.
      destruct Hpre1 as [->|Hpre1]; [|now apply IH].
      apply Hfresh, in_or_app. now right.
Qed.

(** An item whose turn raises makes the call raise, and keeps its value. *)
Lemma extend_query_ranges_item_raises (st st' : store) (q : nat)
  (d : dict value) (rfd : dict scalar) (ds : option DataFrame)
  (r : result nat) (k : string) (v : value) (e0 : exn) :
  load st q = Some d ->
  NoDup (keys d) ->
  In (k, v) d ->
  relax_value rfd ds k v = Raise e0 ->
  extend_query_ranges st q rfd ds = (st', r) ->
  (exists e, r = Raise e) /\
  exists d', load st' q = Some d' /\ dict_get d' k = Some v.
Proof.
  intros Hload ND HIn Hstep Hrun.
  destruct (extend_query_ranges_slot st st' q d rfd ds r k v Hload ND HIn Hrun)
    as (d' & Hd' & _ & Hslot & Hok).
  split.
  - destruct r as [q'|e]; [|eauto]. exfalso.
    assert (q' = q).
    { rewrite (extend_query_ranges_items rfd ds st q d Hload ND) in Hrun.
      inversion Hrun. destruct (snd (relax_items rfd ds d)); congruence. }
    subst q'. destruct (Hok eq_refl) as (o & Ho & _). congruence.
  - exists d'. split; [exact Hd'|].
    destruct Hslot as [H|(v' & Hv' & _)]; [exact H | congruence].
Qed.

(** X7.  Without a dataset (the default), a str attribute with a positive
    threshold cannot be relaxed: its turn raises TypeError, so the call
    raises, and the attribute keeps its value. *)
Theorem extend_query_ranges_needs_dataset
  (st st' : store) (q : nat) (d : dict value) (rfd : dict scalar)
  (r : result nat) (k s : string) (th : scalar) :
  load st q = Some d ->
  NoDup (keys d) ->
  In (k, Scalar (SStr s)) d ->
  dict_get rfd k = Some th ->
  gt_zero th = Ok true ->
  extend_query_ranges st q rfd None = (st', r) ->
  relax_value rfd None k (Scalar (SStr s)) = Raise TypeError /\
  (exists e, r = Raise e) /\
  exists d', load st' q = Some d' /\ dict_get d' k = Some (Scalar (SStr s)).
Proof.
  intros Hload ND HIn Hget Hpos Hrun.
  assert (Hstep : relax_value rfd None k (Scalar (SStr s)) = Raise TypeError).
  { unfold relax_value. now rewrite Hget, Hpos. }
  split; [exact Hstep|].
  exact (extend_query_ranges_item_raises st st' q d rfd None r k _ _
           Hload ND HIn Hstep Hrun).
Qed.

(** X8.  A bool is an int to [isinstance]: under an int threshold [t > 0]
    True and False are replaced by the window around 1 and 0. *)
Theorem extend_query_ranges_bool
  (st st' : store) (q : nat) (d : dict value) (rfd : dict scalar)
  (ds : option DataFrame) (k : string) (b : bool) (t : Z) :
  load st q = Some d ->
  NoDup (keys d) ->
  In (k, Scalar (SBool b)) d ->
  dict_get rfd k = Some (SInt t) ->
  0 < t ->
  extend_query_ranges st q rfd ds = (st', Ok q) ->
  exists d', load st' q = Some d' /\
             dict_get d' k = Some (VList (map SInt (window (Z.b2z b) t))).
Proof.
  intros Hload ND HIn Hget Hpos Hrun.
  assert (Hstep : relax_value rfd ds k (Scalar (SBool b))
                  = Ok (Some (VList (map SInt (window (Z.b2z b) t))))).
  { unfold relax_value. rewrite Hget, gt_zero_int.
    destruct (Z.ltb_spec 0 t); [|lia].
    cbn [bind as_int]. now rewrite val_range_int. }
  destruct (extend_query_ranges_slot st st' q d rfd ds (Ok q) k _
              Hload ND HIn Hrun) as (d' & Hd' & _ & _ & Hok).
  destruct (Hok eq_refl) as (o & Ho & Hslot).
  exists d'. split; [exact Hd'|]. rewrite Hstep in Ho.
  inversion Ho; subst o. exact Hslot.
Qed.

(** X9.  A threshold that is no number ([None], or a str such as the RFD
    holds under "RHS") makes the comparison with 0.0 raise TypeError for
    any value of the attribute: the call raises and the attribute keeps
    its value. *)
Theorem extend_query_ranges_bad_threshold
  (st st' : store) (q : nat) (d : dict value) (rfd : dict scalar)
  (ds : option DataFrame) (r : result nat) (k : string) (v : value)
  (th : scalar) :
  load st q = Some d ->
  NoDup (keys d) ->
  In (k, v) d ->
  dict_get rfd k = Some th ->
  number_of_scalar th = None ->
  extend_query_ranges st q rfd ds = (st', r) ->
  relax_value rfd ds k v = Raise TypeError /\
  (exists e, r = Raise e) /\
  exists d', load st' q = Some d' /\ dict_get d' k = Some v.
Proof.
  intros Hload ND HIn Hget Hnum Hrun.
  assert (Hstep : relax_value rfd ds k v = Raise TypeError).
  { unfold relax_value, gt_zero. now rewrite Hget, Hnum. }
  split; [exact Hstep|].
  exact (extend_query_ranges_item_raises st st' q d rfd ds r k _ _
           Hload ND HIn Hstep Hrun).
Qed.

(* ===================================================================== *)
(** * More on the similarity matcher *)
(* ===================================================================== *)

(** A comprehension whose turns can only raise [e] raises [e] as soon as
    one turn raises. *)
Lemma mapM_raises {A B : Type} (f : A -> result B) (l : list A) (e : exn) :
  (forall x e', f x = Raise e' -> e' = e) ->
  (exists x e', In x l /\ f x = Raise e') ->
  mapM f l = Raise e.
Proof.
  intros Honly. induction l as [|x l IH]; intros (y & e' & HIn & Hy).
  - destruct HIn.
  - cbn [mapM]. destruct (f x) as [b|e0] eqn:Hx.
    + cbn [bind]. destruct HIn as [->|HIn]; [congruence|].
      rewrite IH by eauto. reflexivity.
    + cbn [bind]. now rewrite (Honly x e0 Hx).
Qed.

(** X10.  [similar_strings] raises TypeError when it is given no dataset,
    KeyError when the dataset has no column [col], and TypeError when some
    cell of the column is not a str (a missing value, for one). *)
Theorem similar_strings_errors (source col : string) (th : scalar) :
  similar_strings source None col th = Raise TypeError /\
  (forall df, has_column df col = false ->
     similar_strings source (Some df) col th = Raise KeyError) /\
  (forall df row,
     has_column df col = true ->
     In row (records df) ->
     (forall w, cell (columns df) row col <> SStr w) ->
     similar_strings source (Some df) col th = Raise TypeError).
Proof.
  split; [reflexivity|]. split.
  - intros df Hcol. unfold similar_strings, getitem_column. now rewrite Hcol.
  - intros df row Hcol Hrow Hcell. unfold similar_strings, getitem_column.
    rewrite Hcol. cbn [bind]. rewrite mapM_raises with (e := TypeError).
    + reflexivity.
    + intros [i x] e'. cbn [snd fst].
      destruct x; try (intros E; now inversion E).
      unfold int_le. destruct (number_of_scalar th); cbn [bind];
        intros E; now inversion E.
    + apply in_records in Hrow. destruct Hrow as [i Hrow].
      exists (i, cell (columns df) row col), TypeError. split.
      * apply in_map_iff. exists (i, row). now split.
      * cbn [snd]. destruct (cell (columns df) row col) eqn:E; try reflexivity.
        now elim (Hcell s).
Qed.

Lemma filter_implies_subsequence {A : Type} (p q : A -> bool) (l : list A) :
  (forall x, p x = true -> q x = true) ->
  subsequence (filter p l) (filter q l).
Proof.
  intros Hpq. induction l as [|x l IH]; simpl; [constructor|].
  destruct (p x) eqn:Hp.
  - rewrite (Hpq x Hp). now constructor.
  - destruct (q x); [now constructor | exact IH].
Qed.

(** X11.  On a dataset with at least one row and a column of strings, a
    larger int bound never loses a match, and every bound [t >= 0] matches
    all occurrences of the source itself: the answers are nested, each in
    the order of the column. *)
Theorem similar_strings_monotone (source : string) (df : DataFrame)
  (col : string) (t t' : Z) (words : list string) :
  has_column df col = true ->
  rows df <> [] ->
  map (fun r => cell (columns df) (snd r) col) (rows df) = map SStr words ->
  0 <= t ->
  t <= t' ->
  exists l l',
    similar_strings source (Some df) col (SInt t) = Ok (map SStr l) /\
    similar_strings source (Some df) col (SInt t') = Ok (map SStr l') /\
    subsequence (occurrences source words) l /\
    subsequence l l' /\
    subsequence l' words.
Proof.
  intros Hcol Hrows Hwords Ht Htt'.
  exists (within source t words), (within source t' words).
  split.
  { now rewrite (similar_strings_numeric source df col (SInt t) (NInt t) words
                   Hcol Hrows Hwords eq_refl). }
  split.
  { now rewrite (similar_strings_numeric source df col (SInt t') (NInt t') words
                   Hcol Hrows Hwords eq_refl). }
  split; [|split].
  - rewrite <- within_zero. apply filter_implies_subsequence.
    intros w Hw. apply Z.leb_le in Hw. apply Z.leb_le. lia.
  - apply filter_implies_subsequence.
    intros w Hw. apply Z.leb_le in Hw. apply Z.leb_le. lia.
  - apply filter_subsequence.
Qed.

(* ===================================================================== *)
(** * More on rendering *)
(* ===================================================================== *)

(** X12.  An RFD without an "RHS" entry cannot be rendered:
    [rfd_to_string] raises KeyError, whatever else the RFD holds. *)
Theorem rfd_to_string_without_rhs (float_repr : float -> string)
  (rfd : dict scalar) :
  dict_get rfd "RHS" = None ->
  rfd_to_string float_repr rfd = Raise KeyError.
Proof.
  intros Hnone. unfold rfd_to_string.
  destruct rfd as [|[k v] rest] eqn:Erfd.
  - reflexivity.
  - rewrite <- Erfd in *. rewrite Erfd at 1. cbn [mapM].
    destruct (String.eqb_spec k "RHS") as [->|Hne].
    + exfalso. apply dict_get_none in Hnone. apply Hnone. rewrite Erfd.
      now left.
    + unfold getitem at 1. rewrite Hnone. reflexivity.
Qed.

(** With an "RHS" entry in place the list comprehension can only raise
    TypeError, from [numpy.isnan]. *)
Lemma piece_raises_TypeError (float_repr : float -> string)
  (rfd : dict scalar) (x : scalar) (kv : string * scalar) (e : exn) :
  dict_get rfd "RHS" = Some x ->
  (let (key, val) := kv in
   if String.eqb key "RHS" then Ok ""
   else
     let* r := getitem rfd "RHS" in
     if eq_str key r then Ok ""
     else
       let* absent := np_isnan val in
       if absent then Ok ""
       else Ok ("(" ++ key ++ " <= " ++ str float_repr val ++ ") ")%string)
  = Raise e ->
  e = TypeError.
Proof.
  intros Hrhs. destruct kv as [k v]. unfold getitem. rewrite Hrhs.
  cbn [bind]. destruct (String.eqb k "RHS"); [discriminate|].
  destruct (eq_str k x); [discriminate|].
  destruct v as [|b|z|f|s]; cbn [np_isnan bind]; try discriminate;
    try (intros E; now inversion E).
  destruct f; cbn [bind]; discriminate.
Qed.

(** X13.  When the attribute named under "RHS" is no key of the RFD, and
    the other entries hold numbers or NaN, [rfd_to_string] raises
    KeyError: the bound of the dependent attribute is looked up last. *)
Theorem rfd_to_string_unbounded_rhs (float_repr : float -> string)
  (rfd : dict scalar) (rhs : string) :
  dict_get rfd "RHS" = Some (SStr rhs) ->
  dict_get rfd rhs = None ->
  (forall k v, In (k, v) rfd -> k <> "RHS" -> k <> rhs ->
               number_of_scalar v <> None) ->
  rfd_to_string float_repr rfd = Raise KeyError.
Proof.
  intros Hrhs Hnone Hnum.
  destruct (pieces float_repr rfd rhs Hrhs rfd Hnum) as (parts & Hparts & _).
  unfold rfd_to_string. rewrite Hparts. cbn [bind].
  unfold getitem at 1. rewrite Hrhs. cbn [bind getitem_scalar].
  unfold getitem. now rewrite Hnone.
Qed.

(** X14.  A threshold that is [None] or a str, under an attribute other
    than "RHS" and the dependent one, makes [rfd_to_string] raise
    TypeError: [numpy.isnan] takes numbers only. *)
Theorem rfd_to_string_bad_threshold (float_repr : float -> string)
  (rfd : dict scalar) (rhs k : string) (v : scalar) :
  dict_get rfd "RHS" = Some (SStr rhs) ->
  In (k, v) rfd ->
  k <> "RHS" ->
  k <> rhs ->
  number_of_scalar v = None ->
  rfd_to_string float_repr rfd = Raise TypeError.
Proof.
  intros Hrhs HIn HneR Hner Hnum. unfold rfd_to_string.
  rewrite mapM_raises with (e := TypeError); [reflexivity| |].
  - intros kv e'. apply piece_raises_TypeError with (x := SStr rhs). exact Hrhs.
  - exists (k, v), TypeError. split; [exact HIn|].
    unfold getitem. rewrite Hrhs. cbn [bind eq_str].
    destruct (String.eqb_spec k "RHS"); [contradiction|].
    destruct (String.eqb_spec k rhs); [contradiction|].
    destruct v as [|b|z|f|s]; cbn [number_of_scalar] in Hnum;
      try discriminate; reflexivity.
Qed.

(* ===================================================================== *)
(** * The filter expression *)
(* ===================================================================== *)

(** X15.  [query_dict_to_expr] puts a str value between single quotes as
    it is, with no escaping: a single str attribute whose value contains a
    quote, " and ", a second key and " == '" renders to the same expression,
    character for character, as the query with the two attributes. *)
Theorem query_dict_to_expr_no_escaping (float_repr : float -> string)
  (str_repr : string -> string) (k1 k2 s1 s2 : string) :
  query_dict_to_expr float_repr str_repr
    [(k1, Scalar (SStr (s1 ++ "' and " ++ k2 ++ " == '" ++ s2)%string))]
  = query_dict_to_expr float_repr str_repr
      [(k1, Scalar (SStr s1)); (k2, Scalar (SStr s2))].
Proof.
  unfold query_dict_to_expr. cbn [map String.concat clause].
  cbn [isinstance_str as_str negb format str].
  rewrite !append_assoc. reflexivity.
Qed.

(* ===================================================================== *)
(** * What the ranker leaves behind *)
(* ===================================================================== *)

Lemma has_column_In (df : DataFrame) (c : string) :
  has_column df c = true <-> In c (columns df).
Proof.
  unfold has_column. rewrite existsb_exists. split.
  - intros (x & Hx & E). apply String.eqb_eq in E. now subst.
  - intros H. exists c. split; [exact H | apply String.eqb_refl].
Qed.

(** A row written column by column reads back column by column. *)
Lemma lookup_cell_map (cols : list string) (h : string -> scalar) (c : string) :
  In c cols -> lookup_cell cols (map h cols) c = Some (h c).
Proof.
  induction cols as [|c0 cols IH]; simpl; [easy|].
  destruct (String.eqb_spec c c0) as [->|Hne]; [easy|].
  intros [E|H]; [congruence | now apply IH].
Qed.

Lemma lookup_cell_map_app (cols : list string) (h : string -> scalar)
  (n : string) (x : scalar) (c : string) :
  lookup_cell (cols ++ [n]) (map h cols ++ [x]) c
  = if existsb (String.eqb c) cols then Some (h c)
    else if String.eqb c n then Some x else None.
Proof.
  induction cols as [|c0 cols IH]; simpl.
  - now destruct (String.eqb c n).
  - destruct (String.eqb_spec c c0) as [->|Hne]; [easy|]. exact IH.
Qed.

Lemma combine_map_r {A B : Type} (f : A -> B) (l : list A) :
  combine l (map f l) = map (fun x => (x, f x)) l.
Proof.
  induction l as [|x l IH]; simpl; [easy|]. now rewrite IH.
Qed.

(** The rows of a catalog after the NaNs column has been assigned. *)
Lemma assign_count_rows (df : DataFrame) (c : string) :
  rows (assign df c (isnull_sum df))
  = map (fun r =>
           (fst r,
            if has_column df c
            then map (fun c' => if String.eqb c' c
                                then SInt (count_na (columns df) (snd r))
                                else cell (columns df) (snd r) c') (columns df)
            else map (cell (columns df) (snd r)) (columns df)
                 ++ [SInt (count_na (columns df) (snd r))]))
      (rows df).
Proof.
  unfold assign, isnull_sum. rewrite combine_map_r.
  destruct (has_column df c); cbn [rows]; rewrite map_map; reflexivity.
Qed.

Lemma assign_count_cell (df : DataFrame) (c c' : string) (r : Z * list scalar) :
  has_column df c' = true \/ c' = c ->
  cell (columns (assign df c (isnull_sum df)))
    (if has_column df c
     then map (fun c' => if String.eqb c' c
                         then SInt (count_na (columns df) (snd r))
                         else cell (columns df) (snd r) c') (columns df)
     else map (cell (columns df) (snd r)) (columns df)
          ++ [SInt (count_na (columns df) (snd r))])
    c'
  = if String.eqb c' c then SInt (count_na (columns df) (snd r))
    else cell (columns df) (snd r) c'.
Proof.
  intros Hc'. unfold assign.
  destruct (has_column df c) eqn:Hc; cbn [columns]; unfold cell at 1.
  - rewrite lookup_cell_map; [reflexivity|].
    destruct Hc' as [H| ->]; now apply has_column_In.
  - rewrite lookup_cell_map_app. fold (has_column df c').
    destruct (String.eqb_spec c' c) as [->|Hne].
    + now rewrite Hc.
    + destruct Hc' as [H|E]; [now rewrite H | contradiction].
Qed.

Lemma sort_nan_query_attributes_state (self : t) :
  sort_nan_query_attributes self =
  (set_query_attributes
     (set_rfds_df self
        (assign (rfds_df self) "NaNs" (isnull_sum (rfds_df self))))
     (query_attributes self ++ ["NaNs"]),
   Raise ValueError).
Proof.
  unfold sort_nan_query_attributes, sort_values. cbv zeta.
  cbn [set_query_attributes set_rfds_df rfds_df query_attributes].
  rewrite length_app, length_map, length_app. cbn [List.length].
  rewrite Nat.add_comm with (n := List.length (query_attributes self)).
  reflexivity.
Qed.

(** X16.  The call to the ranker raises ValueError and leaves the catalog
    of the instance with the same rows under the same labels in the same
    order, with every cell of every column other than "NaNs" as it was,
    and with a "NaNs" column that holds the number of missing cells each
    row had. *)
Theorem sort_nan_query_attributes_aftermath (self self' : t)
  (r : result DataFrame) :
  sort_nan_query_attributes self = (self', r) ->
  r = Raise ValueError /\
  index (rfds_df self') = index (rfds_df self) /\
  has_column (rfds_df self') "NaNs" = true /\
  map (fun row => cell (columns (rfds_df self')) row "NaNs")
    (records (rfds_df self'))
  = map (fun row => SInt (count_na (columns (rfds_df self)) row))
      (records (rfds_df self)) /\
  (forall c, c <> "NaNs" -> has_column (rfds_df self) c = true ->
     has_column (rfds_df self') c = true /\
     map (fun row => cell (columns (rfds_df self')) row c)
       (records (rfds_df self'))
     = map (fun row => cell (columns (rfds_df self)) row c)
         (records (rfds_df self))).
Proof.
  rewrite sort_nan_query_attributes_state.
  intros E. inversion E as [[Hself Hr]]. clear E.
  cbn [set_query_attributes set_rfds_df rfds_df].
  set (df := rfds_df self).
  split; [reflexivity|]. split; [|split; [|split]].
  - unfold index. rewrite assign_count_rows, map_map. reflexivity.
  - unfold assign. destruct (has_column df "NaNs") eqn:Hc; [exact Hc|].
    apply has_column_In. cbn [columns]. apply in_or_app. right. now left.
  - unfold records. rewrite assign_count_rows, !map_map. apply map_ext.
    intros row. cbn [snd]. rewrite assign_count_cell by now right.
    now rewrite String.eqb_refl.
  - intros c Hne Hc. split.
    + unfold assign. destruct (has_column df "NaNs"); [exact Hc|].
      apply has_column_In. cbn [columns]. apply in_or_app. left.
      now apply has_column_In.
    + unfold records. rewrite assign_count_rows, !map_map. apply map_ext.
      intros row. cbn [snd]. rewrite assign_count_cell by now left.
      now destruct (String.eqb_spec c "NaNs").
Qed.

(* ===================================================================== *)
(** * The further properties on the worked inputs *)
(* ===================================================================== *)

Lemma scenario_catalog_labels : NoDup (index (rfds_df Scenario.relaxer)).
Proof.
  repeat constructor; simpl; intuition discriminate.
Defined.

Lemma inputs_query_flag_keys : NoDup (keys Inputs.query_flag).
Proof.
  repeat constructor; simpl; intuition discriminate.
Defined.

Lemma inputs_query_rhs_keys : NoDup (keys Inputs.query_rhs).
Proof.
  repeat constructor; simpl; intuition discriminate.
Defined.

Lemma drop_query_na_exact_witness :
  exists self' df,
    drop_query_na Scenario.relaxer = (self', Ok df) /\
    index df = map Z.of_nat (seq 0 (List.length (records df))).
Proof.
  eexists. eexists. split; [reflexivity|].
  exact (proj2 (drop_query_na_exact Scenario.relaxer _ _ eq_refl)).
Defined.

Lemma drop_query_rhs_exact_witness :
  exists self' df,
    drop_query_rhs Scenario.relaxer = (self', Ok df) /\
    records df
    = filter (fun row =>
                negb (rhs_in_query (columns Scenario.catalog) ["age"; "city"] row))
        (records Scenario.catalog).
Proof.
  eexists. eexists. split; [reflexivity|].
  exact (drop_query_rhs_exact Scenario.relaxer _ _
           scenario_catalog_labels eq_refl).
Defined.

Lemma filter_pipeline_exact_witness :
  exists self' df,
    and_then drop_query_na drop_query_rhs Scenario.relaxer = (self', Ok df) /\
    records df
    = filter (fun row =>
                forallb (fun a => negb (isna (cell (columns Scenario.catalog) row a)))
                  ["age"; "city"]
                && negb (rhs_in_query (columns Scenario.catalog)
                           ["age"; "city"] row))
        (records Scenario.catalog).
Proof.
  eexists. eexists. split; [reflexivity|].
  exact (filter_pipeline_exact Scenario.relaxer _ _ eq_refl).
Defined.

Lemma filters_commute_witness :
  and_then drop_query_na drop_query_rhs Scenario.relaxer
  = and_then drop_query_rhs drop_query_na Scenario.relaxer.
Proof.
  exact (filters_commute Scenario.relaxer eq_refl scenario_catalog_labels).
Defined.

Lemma extend_query_ranges_twice_witness :
  exists st1,
    extend_query_ranges [Scenario.query] 0 Scenario.rfd (Some Scenario.data_set)
    = (st1, Ok 0%nat) /\
    extend_query_ranges st1 0 Scenario.rfd (Some Scenario.data_set)
    = (st1, Ok 0%nat).
Proof.
  eexists. split; [vm_compute; reflexivity|].
  refine (extend_query_ranges_twice [Scenario.query] _ 0 Scenario.query
            Scenario.rfd (Some Scenario.data_set)
            eq_refl scenario_query_keys _).
  vm_compute. reflexivity.
Defined.

Lemma extend_query_ranges_partial_witness :
  exists k v d',
    relax_value Scenario.rfd None k v = Raise TypeError /\
    load (fst (extend_query_ranges [Scenario.query] 0 Scenario.rfd None)) 0
    = Some d' /\
    dict_get d' k = Some v.
Proof.
  destruct (extend_query_ranges_partial
              [Scenario.query]
              (fst (extend_query_ranges [Scenario.query] 0 Scenario.rfd None))
              0 Scenario.query Scenario.rfd None TypeError
              eq_refl scenario_query_keys eq_refl)
    as (pre & k & v & post & d' & _ & Hk & Hd' & _ & Hrest).
  exists k, v, d'. split; [exact Hk|]. split; [exact Hd'|].
  apply Hrest. now left.
Defined.

Lemma extend_query_ranges_needs_dataset_witness :
  exists e, snd (extend_query_ranges [Scenario.query] 0 Scenario.rfd None)
            = Raise e.
Proof.
  exact (proj1 (proj2
    (extend_query_ranges_needs_dataset
       [Scenario.query] _ 0 Scenario.query Scenario.rfd _ "city" "Rome" (SInt 1)
       eq_refl scenario_query_keys (or_intror (or_introl eq_refl))
       eq_refl eq_refl (surjective_pairing _)))).
Defined.

Lemma extend_query_ranges_bool_witness :
  exists st' d',
    extend_query_ranges [Inputs.query_flag] 0 Inputs.rfd_flag None
    = (st', Ok 0%nat) /\
    load st' 0 = Some d' /\
    dict_get d' "flag" = Some (VList [SInt 0; SInt 1; SInt 2]).
Proof.
  eexists.
  destruct (extend_query_ranges_bool
              [Inputs.query_flag] _ 0 Inputs.query_flag Inputs.rfd_flag None
              "flag" true 1
              eq_refl inputs_query_flag_keys (or_introl eq_refl)
              eq_refl eq_refl eq_refl) as (d' & Hd' & Hget).
  exists d'. split; [reflexivity|]. split; [exact Hd' | exact Hget].
Defined.

Lemma extend_query_ranges_bad_threshold_witness :
  relax_value Scenario.rfd None "RHS" (Scalar (SStr "price")) = Raise TypeError.
Proof.
  exact (proj1
    (extend_query_ranges_bad_threshold
       [Inputs.query_rhs] _ 0 Inputs.query_rhs Scenario.rfd None _
       "RHS" (Scalar (SStr "price")) (SStr "price")
       eq_refl inputs_query_rhs_keys (or_intror (or_introl eq_refl))
       eq_refl eq_refl (surjective_pairing _))).
Defined.

Lemma similar_strings_errors_witness :
  similar_strings "Rome" (Some Inputs.data_set_gap) "city" (SInt 1)
  = Raise TypeError.
Proof.
  refine (proj2 (proj2 (similar_strings_errors "Rome" "city" (SInt 1)))
            Inputs.data_set_gap [SFloat nan; SInt 41]
            eq_refl (or_intror (or_introl eq_refl)) _).
  intros w. vm_compute. discriminate.
Defined.

Lemma similar_strings_monotone_witness :
  exists l l',
    similar_strings "Rome" (Some Scenario.data_set) "city" (SInt 0)
    = Ok (map SStr l) /\
    similar_strings "Rome" (Some Scenario.data_set) "city" (SInt 1)
    = Ok (map SStr l') /\
    subsequence l l'.
Proof.
  destruct (similar_strings_monotone "Rome" Scenario.data_set "city" 0 1
              ["Rome"; "Roma"; "Turin"] eq_refl)
    as (l & l' & H0 & H1 & _ & Hsub & _);
    try discriminate; try reflexivity.
  exists l, l'. auto.
Defined.

Lemma rfd_to_string_without_rhs_witness :
  rfd_to_string (fun _ => "nan") Inputs.rfd_no_rhs = Raise KeyError.
Proof.
  exact (rfd_to_string_without_rhs (fun _ => "nan") Inputs.rfd_no_rhs eq_refl).
Defined.

Lemma rfd_to_string_unbounded_rhs_witness :
  rfd_to_string (fun _ => "nan") Scenario.rfd = Raise KeyError.
Proof.
  refine (rfd_to_string_unbounded_rhs (fun _ => "nan") Scenario.rfd "price"
            eq_refl eq_refl _).
  intros k v HIn H1 H2. simpl in HIn.
  repeat (destruct HIn as [E|HIn]; [inversion E; subst; try discriminate|]);
    try contradiction; try (now elim H1); try (now elim H2).
Defined.

Lemma rfd_to_string_bad_threshold_witness :
  rfd_to_string (fun _ => "nan") Inputs.rfd_none = Raise TypeError.
Proof.
  refine (rfd_to_string_bad_threshold (fun _ => "nan") Inputs.rfd_none
            "price" "age" SNone eq_refl (or_intror (or_introl eq_refl))
            _ _ eq_refl); discriminate.
Defined.

Lemma sort_nan_query_attributes_aftermath_witness :
  index (rfds_df (fst (sort_nan_query_attributes Scenario.relaxer)))
  = index (rfds_df Scenario.relaxer).
Proof.
  exact (proj1 (proj2
    (sort_nan_query_attributes_aftermath Scenario.relaxer _ _
       (surjective_pairing _)))).
Defined.

(* ===================================================================== *)
(** * Filtering after the ranker has raised *)
(* ===================================================================== *)

Lemma filter_map_swap {A B : Type} (g : A -> B) (p : B -> bool) (l : list A) :
  filter p (map g l) = map g (filter (fun x => p (g x)) l).
Proof.
  induction l as [|x l IH]; simpl; [easy|].
  destruct (p (g x)); simpl; now rewrite IH.
Qed.

Lemma forallb_ext_in {A : Type} (f g : A -> bool) (l : list A) :
  (forall x, In x l -> f x = g x) -> forallb f l = forallb g l.
Proof.
  induction l as [|x l IH]; simpl; intros H; [easy|].
  rewrite (H x) by now left. f_equal. apply IH. intros y Hy. apply H. now right.
Qed.

(** The record that [assign] writes for a row. *)
Lemma assign_count_records (df : DataFrame) (c : string) :
  records (assign df c (isnull_sum df))
  = map (fun row =>
           if has_column df c
           then map (fun c' => if String.eqb c' c
                               then SInt (count_na (columns df) row)
                               else cell (columns df) row c') (columns df)
           else map (cell (columns df) row) (columns df)
                ++ [SInt (count_na (columns df) row)])
      (records df).
Proof.
  unfold records. rewrite assign_count_rows, !map_map. reflexivity.
Qed.

(** X17.  A call to the ranker, which raises, does not change which RFDs
    [drop_query_na] keeps afterwards: when the catalog has a column for
    every query attribute and none of them is called "NaNs",
    [drop_query_na] returns after the ranker as it does without it, and
    the two catalogs agree on every column the catalog had, other than
    "NaNs", which the later catalog has in any case. *)
Theorem drop_query_na_after_ranker (self self1 : t) (r1 : result DataFrame) :
  sort_nan_query_attributes self = (self1, r1) ->
  forallb (has_column (rfds_df self)) (query_attributes self) = true ->
  ~ In "NaNs" (query_attributes self) ->
  exists self2 df2 self' df,
    drop_query_na self1 = (self2, Ok df2) /\
    drop_query_na self = (self', Ok df) /\
    has_column df2 "NaNs" = true /\
    forall c, c <> "NaNs" -> has_column (rfds_df self) c = true ->
      map (fun row => cell (columns df2) row c) (records df2)
      = map (fun row => cell (columns df) row c) (records df).
Proof.
  rewrite sort_nan_query_attributes_state.
  intros E Hschema Hfresh. inversion E as [[Hself Hr]]. clear E.
  set (df0 := rfds_df self) in *.
  set (attrs := query_attributes self) in *.
  set (df1 := assign df0 "NaNs" (isnull_sum df0)).
  assert (Hnans : has_column df1 "NaNs" = true).
  { unfold df1, assign. destruct (has_column df0 "NaNs") eqn:Hc; [exact Hc|].
    apply has_column_In. cbn [columns]. apply in_or_app. right. now left. }
  assert (Hkeep : forall c, has_column df0 c = true -> has_column df1 c = true).
  { intros c Hc. unfold df1, assign.
    destruct (has_column df0 "NaNs"); [exact Hc|].
    apply has_column_In. cbn [columns]. apply in_or_app. left.
    now apply has_column_In. }
  assert (Hschema1 : forallb (has_column df1) (attrs ++ ["NaNs"]) = true).
  { rewrite forallb_app. cbn [forallb]. rewrite Hnans, andb_true_r.
    apply forallb_forall. intros a Ha. apply Hkeep.
    rewrite forallb_forall in Hschema. now apply Hschema. }
  do 4 eexists.
  rewrite !drop_query_na_unfold.
  cbn [set_query_attributes set_rfds_df rfds_df query_attributes].
  fold df0 attrs df1. rewrite Hschema1, Hschema. cbv zeta.
  split; [reflexivity|]. split; [reflexivity|]. split; [exact Hnans|].
  intros c Hne Hc.
  rewrite !complete_rows_columns, !complete_rows_records.
  set (g := fun row : list scalar =>
              if has_column df0 "NaNs"
              then map (fun c' => if String.eqb c' "NaNs"
                                  then SInt (count_na (columns df0) row)
                                  else cell (columns df0) row c') (columns df0)
              else map (cell (columns df0) row) (columns df0)
                   ++ [SInt (count_na (columns df0) row)]).
  assert (Hrec : records df1 = map g (records df0))
    by apply assign_count_records.
  rewrite Hrec, filter_map_swap, map_map.
  assert (Hcell : forall row c', has_column df0 c' = true \/ c' = "NaNs" ->
            cell (columns df1) (g row) c'
            = if String.eqb c' "NaNs" then SInt (count_na (columns df0) row)
              else cell (columns df0) row c').
  { intros row c' Hc'.
    exact (assign_count_cell df0 "NaNs" c' (0, row) Hc'). }
  assert (Hsame : forall row,
            row_complete (columns df1) (attrs ++ ["NaNs"]) (0, g row)
            = row_complete (columns df0) attrs (0, row)).
  { intros row. unfold row_complete. cbn [snd]. rewrite forallb_app.
    cbn [forallb]. rewrite (Hcell row "NaNs") by now right.
    cbn [String.eqb Ascii.eqb Bool.eqb isna negb andb].
    rewrite andb_true_r. apply forallb_ext_in. intros a Ha.
    rewrite Hcell.
    - destruct (String.eqb_spec a "NaNs") as [->|_]; [contradiction|reflexivity].
    - left. rewrite forallb_forall in Hschema. now apply Hschema. }
  rewrite (filter_ext _ _ Hsame).
  apply map_ext. intros row. rewrite Hcell by now left.
  now destruct (String.eqb_spec c "NaNs").
Qed.

(** X18.  [drop_query_rhs] looks at the query attributes only through the
    RHS column: it returns whenever the catalog has an RHS column, also
    for query attributes the catalog has no column for, and without an
    RHS column it raises KeyError and leaves the instance as it was. *)
Theorem drop_query_rhs_needs_rhs_column (self : t) :
  (has_column (rfds_df self) "RHS" = true ->
   exists df, drop_query_rhs self = (set_rfds_df self df, Ok df) /\
              columns df = columns (rfds_df self)) /\
  (has_column (rfds_df self) "RHS" = false ->
   drop_query_rhs self = (self, Raise KeyError)).
Proof.
  rewrite drop_query_rhs_unfold. split; intros H; rewrite H.
  - cbv zeta. eexists. split; reflexivity.
  - reflexivity.
Qed.

Lemma drop_query_na_after_ranker_witness :
  exists self2 df2,
    drop_query_na (fst (sort_nan_query_attributes Scenario.relaxer))
    = (self2, Ok df2) /\
    has_column df2 "NaNs" = true.
Proof.
  destruct (drop_query_na_after_ranker Scenario.relaxer _ _
              (surjective_pairing _) eq_refl)
    as (self2 & df2 & _ & _ & H2 & _ & Hnans & _).
  - simpl. intuition discriminate.
  - exists self2, df2. split; [exact H2 | exact Hnans].
Defined.

Lemma drop_query_rhs_needs_rhs_column_witness :
  exists df,
    drop_query_rhs Scenario.relaxer_zip
    = (set_rfds_df Scenario.relaxer_zip df, Ok df) /\
    columns df = columns (rfds_df Scenario.relaxer_zip).
Proof.
  exact (proj1 (drop_query_rhs_needs_rhs_column Scenario.relaxer_zip) eq_refl).
Defined.
